(** * Calendaria: the calendar computation engine

    A shallow embedding of the numeric core of Calendaria
    (leap-year-utils.mjs and the CalendariaCalendar data model) together
    with the properties its specification states about it.

    Conventions of the embedding.
    - JavaScript numbers that the engine treats as integers (years, day
      counts, cycle lengths, offsets) are [Z]; [Math.floor (a / b)] is
      [a / b] ([Z.div] rounds towards minus infinity) and the remainder
      operator [%], which takes the sign of the dividend, is [Z.rem].
      Fractional cycle lengths lie outside the embedding: the properties
      below are about whole numbers of days.
    - Hours of the day are fractional: they are rationals [Q].
    - [undefined] / [null] is [None]; a value that [Number.isFinite]
      rejects ([NaN], [Infinity]) is [NotFinite].
    - Strings are [string]; [game.i18n] calls are kept symbolic. *)

From Stdlib Require Import ZArith QArith List String Ascii Bool Lia Lqa Permutation Sorted.
Import ListNotations.

#[local] Open Scope Z_scope.

(** ** JavaScript string primitives used by the engine *)

Module JsString.

#[local] Open Scope string_scope.
#[local] Open Scope Z_scope.

(** White space as [String.prototype.trim] and [parseInt] see it
    (the part of it that lives in 8-bit characters). *)
Definition isWhiteSpace (c : ascii) : bool :=
  let n := nat_of_ascii c in
  ((9 <=? n) && (n <=? 13))%nat || (n =? 32)%nat || (n =? 160)%nat.

Definition isDigit (c : ascii) : bool :=
  let n := nat_of_ascii c in ((48 <=? n) && (n <=? 57))%nat.

Definition digitValue (c : ascii) : Z := Z.of_nat (nat_of_ascii c - 48).

Fixpoint trimStart (s : string) : string :=
  match s with
  | String c s' => if isWhiteSpace c then trimStart s' else s
  | EmptyString => EmptyString
  end.

(** [trimEnd] keeps a character when something that is not white space
    follows it or when it is not white space itself. *)
Fixpoint trimEnd (s : string) : string :=
  match s with
  | EmptyString => EmptyString
  | String c s' =>
      match trimEnd s' with
      | EmptyString => if isWhiteSpace c then EmptyString else String c EmptyString
      | r => String c r
      end
  end.

Definition trim (s : string) : string := trimEnd (trimStart s).

(** [s.includes(c)] for a one-character needle. *)
Fixpoint includes (s : string) (c : ascii) : bool :=
  match s with
  | EmptyString => false
  | String d s' => Ascii.eqb d c || includes s' c
  end.

(** [s.replace(/[...]/g, '')]: drop every character of the class. *)
Fixpoint removeAll (cls : ascii -> bool) (s : string) : string :=
  match s with
  | EmptyString => EmptyString
  | String c s' => if cls c then removeAll cls s' else String c (removeAll cls s')
  end.

(** [s.split(sep)] for a one-character separator. *)
Fixpoint split (sep : ascii) (s : string) : list string :=
  match s with
  | EmptyString => [EmptyString]
  | String c s' =>
      if Ascii.eqb c sep then EmptyString :: split sep s'
      else match split sep s' with
           | h :: t => String c h :: t
           | [] => [String c EmptyString]
           end
  end.

(** The digits [parseInt] consumes: the longest prefix of decimal digits,
    accumulated most significant first. [None] when there is no digit. *)
Fixpoint parseDigits (acc : option Z) (s : string) : option Z :=
  match s with
  | String c s' =>
      if isDigit c
      then parseDigits (Some (10 * match acc with Some a => a | None => 0 end + digitValue c)) s'
      else acc
  | EmptyString => acc
  end.

(** [parseInt(s, 10)]: skip leading white space, read an optional sign,
    then the digits; [None] stands for [NaN]. *)
Definition parseInt (s : string) : option Z :=
  match trimStart s with
  | String "-" r => option_map Z.opp (parseDigits None r)
  | String "+" r => parseDigits None r
  | r => parseDigits None r
  end.

(** [x || d] on a number: [NaN] and [0] are falsy. *)
Definition orElse (x : option Z) (d : Z) : Z :=
  match x with
  | Some n => if n =? 0 then d else n
  | None => d
  end.

(** The decimal digit [d] as a character, and a digit sequence as text. *)
Definition digitChar (d : nat) : ascii := ascii_of_nat (48 + d).

Fixpoint digitsToString (ds : list nat) : string :=
  match ds with
  | [] => EmptyString
  | d :: ds' => String (digitChar d) (digitsToString ds')
  end.

(** The number a digit sequence denotes, continuing from [acc]. *)
Definition digitsValue (acc : Z) (ds : list nat) : Z :=
  fold_left (fun a d => 10 * a + Z.of_nat d) ds acc.

(** [String(n)] for an integer. *)
Fixpoint natDigits (fuel : nat) (n : Z) (acc : list nat) : list nat :=
  match fuel with
  | O => acc
  | S fuel' =>
      let acc' := Z.to_nat (n mod 10) :: acc in
      if n / 10 =? 0 then acc' else natDigits fuel' (n / 10) acc'
  end.

Definition toString (n : Z) : string :=
  let ds := digitsToString (natDigits (S (Z.to_nat (Z.log2 (Z.abs n)))) (Z.abs n) []) in
  if n <? 0 then String "-" ds else ds.

(** Every character of [s] satisfies [P]. *)
Fixpoint allChars (P : ascii -> bool) (s : string) : bool :=
match s with
| EmptyString => true
| String c s' => P c && allChars P s'
end.

Definition notWhiteSpace (c : ascii) : bool := negb (isWhiteSpace c).

End JsString.

(** ** leap-year-utils.mjs *)

Module LeapYearUtils.

Import JsString.
#[local] Open Scope string_scope.
#[local] Open Scope Z_scope.

Record Interval := mkInterval {
  interval : Z;
  subtracts : bool;
  offset : Z
}.

Inductive Vote := allow | deny | abstain.

Definition isBangOrPlus (c : ascii) : bool :=
  Ascii.eqb c "!" || Ascii.eqb c "+".

(** [parseInterval(intervalStr, offset)] *)
Definition parseInterval (intervalStr : string) (offset : Z) : Interval :=
  let str := trim intervalStr in
  let subtracts := includes str "!" in
  let ignoresOffset := includes str "+" in
  let interval := Z.max 1 (orElse (parseInt (removeAll isBangOrPlus str)) 1) in
  let normalizedOffset :=
    if (interval =? 1) || ignoresOffset then 0
    else Z.rem (Z.rem (interval + offset) interval + interval) interval in
  mkInterval interval subtracts normalizedOffset.

(** [parsePattern(pattern, offset)]; [None] is a missing or non-string
    pattern. *)
Definition parsePattern (pattern : option string) (offset : Z) : list Interval :=
  match pattern with
  | None | Some EmptyString => []
  | Some p =>
      map (fun s => parseInterval s offset)
          (filter (fun s => (0 <? String.length s)%nat)
                  (map trim (split "," p)))
  end.

(** [voteOnYear(intervalObj, year, yearZeroExists)]. A zero interval makes
    [mod % interval] be [NaN], which is not [=== 0]. *)
Definition voteOnYear (intervalObj : Interval) (year : Z) (yearZeroExists : bool) : Vote :=
  let mod0 := year - offset intervalObj in
  let mod1 := if negb yearZeroExists && (year <? 0) then mod0 + 1 else mod0 in
  if negb (interval intervalObj =? 0) && (Z.rem mod1 (interval intervalObj) =? 0)
  then (if subtracts intervalObj then deny else allow)
  else abstain.

(** The reducer of [intersectsYear]. *)
Definition tally (acc : Z) (vote : Vote) : Z :=
  match vote with
  | allow => acc + 1
  | deny => acc - 1
  | abstain => acc
  end.

(** [intersectsYear(intervals, year, yearZeroExists)] *)
Definition intersectsYear (intervals : list Interval) (year : Z) (yearZeroExists : bool) : bool :=
  match intervals with
  | [] => false
  | _ =>
      let votes := map (fun i => voteOnYear i year yearZeroExists) intervals in
      let total := fold_left tally votes 0 in
      total >? 0
  end.

(** The leap year configuration object; every field may be absent. *)
Record LeapYearConfig := mkConfig {
  rule : option string;
  cfg_interval : option Z;
  leapInterval : option Z;
  start : option Z;
  leapStart : option Z;
  pattern : option string
}.

(** [a ?? b] *)
Definition nullish {A} (a b : option A) : option A :=
  match a with Some _ => a | None => b end.

(** [isLeapYear(leapYearConfig, year, yearZeroExists)] *)
Definition isLeapYear (leapYearConfig : option LeapYearConfig) (year : Z) (yearZeroExists : bool) : bool :=
  match leapYearConfig with
  | None => false
  | Some cfg =>
      let rule := match rule cfg with
                  | None | Some EmptyString => "none"
                  | Some r => r
                  end in
      let start := match nullish (start cfg) (leapStart cfg) with
                   | Some s => s
                   | None => 0
                   end in
      if String.eqb rule "none" then false
      else if String.eqb rule "simple" then
        match nullish (cfg_interval cfg) (leapInterval cfg) with
        | None => false
        | Some interval =>
            if interval <=? 0 then false
            else intersectsYear [parseInterval (toString interval) start] year yearZeroExists
        end
      else if String.eqb rule "gregorian" then
        intersectsYear (parsePattern (Some "400,!100,4") start) year yearZeroExists
      else if String.eqb rule "custom" then
        match pattern cfg with
        | None | Some EmptyString => false
        | Some p => intersectsYear (parsePattern (Some p) start) year yearZeroExists
        end
      else false
  end.

(** The spec's vote weights, and their sum over a list of intervals. *)
Definition voteWeight (v : Vote) : Z :=
  match v with
  | allow => 1
  | deny => -1
  | abstain => 0
  end.

Definition voteSum (intervals : list Interval) (year : Z) (yearZeroExists : bool) : Z :=
  fold_right Z.add 0 (map (fun i => voteWeight (voteOnYear i year yearZeroExists)) intervals).

(** The prefix an interval spec may carry. *)
Inductive Prefix := NoPrefix | Bang | Plus.

Definition prefixString (p : Prefix) : string :=
  match p with
  | NoPrefix => ""
  | Bang => "!"
  | Plus => "+"
  end.

Definition isBang (p : Prefix) : bool :=
  match p with Bang => true | _ => false end.

Definition isPlus (p : Prefix) : bool :=
  match p with Plus => true | _ => false end.

(** The spec string for the integer [n] with prefix [p]. *)
Definition specString (p : Prefix) (n : Z) : string :=
  String.append (prefixString p) (toString n).

(** A spec string written digit by digit (leading zeros allowed). *)
Definition specDigits (p : Prefix) (negative : bool) (ds : list nat) : string :=
  String.append (prefixString p)
    (String.append (if negative then "-" else "") (digitsToString ds)).

(** The offset the spec describes for an interval. *)
Definition normalizedOffset (interval offset : Z) (ignoresOffset : bool) : Z :=
  if (interval =? 1) || ignoresOffset then 0
  else Z.rem (Z.rem (interval + offset) interval + interval) interval.

(** A configuration with the gregorian rule and a start offset. *)
Definition gregorian (start : Z) : option LeapYearConfig :=
  Some (mkConfig (Some "gregorian") None None (Some start) None None).

End LeapYearUtils.

(** ** The CalendariaCalendar data model *)

(** A number handed over by the host framework: an integer, or a value
    [Number.isFinite] rejects. *)
Inductive Num := Finite (z : Z) | NotFinite.

Definition numSub (a b : Num) : Num :=
  match a, b with
  | Finite x, Finite y => Finite (x - y)
  | _, _ => NotFinite
  end.

(** What [game.i18n] is asked to render. *)
Inductive Label :=
| Raw (s : string)
| Localize (key : string)
| Format (key : string) (phase : Label).

(** [x < y] on rationals, as a boolean. *)
Definition Qltb (x y : Q) : bool := negb (Qle_bool y x).

(** [s || d] on a string that may be absent: the empty string is falsy. *)
Definition strOr (s : option string) (d : string) : string :=
  match s with
  | None | Some EmptyString => d
  | Some v => v
  end.

(** [s || null] *)
Definition strOrNull (s : option string) : option string :=
  match s with
  | Some EmptyString => None
  | _ => s
  end.

Module Month.
Record t := mk { name : string; days : Z; leapDays : option Z }.
End Month.

(** A moon phase. [start] and [end] of the schema are never read by the
    engine and are left out. *)
Module Phase.
Record t := mk {
  name : string;
  risingName : option string;
  fadingName : option string;
  icon : option string
}.
End Phase.

(** A date as [_componentsToDays] accepts it: time components carry
    [dayOfMonth] (0-indexed), a reference date carries [day] (1-indexed). *)
Module DateLike.
Record t := mk {
  year : Z;
  month : Z;
  dayOfMonth : option Z;
  day : option Z;
  hour : Z;
  minute : Z;
  second : Z
}.
End DateLike.

(** The schema makes [phases] an array field: it is always an array,
    possibly an empty one. *)
Module Moon.
Record t := mk {
  name : string;
  cycleLength : Num;
  cycleDayAdjust : Num;
  phases : list Phase.t;
  referenceDate : DateLike.t
}.
End Moon.

Module MoonPhaseResult.
Record t := mk {
  name : string;
  subPhaseName : Label;
  icon : string;
  position : Q;
  dayInCycle : Z;
  phaseIndex : option nat;
  dayWithinPhase : option Z;
  phaseDuration : option Z
}.
End MoonPhaseResult.

Module MoonPhases.

#[local] Open Scope string_scope.
#[local] Open Scope list_scope.
#[local] Open Scope Z_scope.

(** The body of the loop of [#buildPhaseDayDistribution]: the state is the
    array built so far and [extraAssigned]. *)
Definition distributionStep (primaryDays secondaryDays extraDays : Z)
    (st : list Z * Z) (i : nat) : list Z * Z :=
  let '(distribution, extraAssigned) := st in
  if (i =? 0)%nat || (i =? 4)%nat
  then (distribution ++ [primaryDays], extraAssigned)
  else
    let extra := if extraAssigned <? extraDays then 1 else 0 in
    (distribution ++ [secondaryDays + extra], extraAssigned + 1).

(** [#buildPhaseDayDistribution(cycleLength, numPhases)] *)
Definition buildPhaseDayDistribution (cycleLength numPhases : Z) : list Z :=
  if negb (numPhases =? 8) then
    let baseDays := cycleLength / numPhases in
    let remainder := Z.rem cycleLength numPhases in
    map (fun i => baseDays + (if Z.of_nat i <? remainder then 1 else 0))
        (seq 0 (Z.to_nat numPhases))
  else
    let primaryDays := cycleLength / 8 in
    let totalPrimaryDays := primaryDays * 2 in
    let remainingDays := cycleLength - totalPrimaryDays in
    let secondaryDays := remainingDays / 6 in
    let extraDays := Z.rem remainingDays 6 in
    fst (fold_left (distributionStep primaryDays secondaryDays extraDays)
                   (seq 0 8) ([], 0)).

(** The cumulative walk of [getMoonPhase] from index [i] on: the index of
    the phase holding [dayIndex] and the offset into it, or [None] when
    the loop runs off the end without a [break]. *)
Fixpoint locatePhase (phaseDays : list Z) (i : nat) (cumulativeDays dayIndex : Z)
  : option (nat * Z) :=
  match phaseDays with
  | [] => None
  | d :: rest =>
      if dayIndex <? cumulativeDays + d
      then Some (i, dayIndex - cumulativeDays)
      else locatePhase rest (S i) (cumulativeDays + d) dayIndex
  end.

(** [a || b] on phase objects, which are truthy when present. *)
Definition nullish_phase (a b : option Phase.t) : option Phase.t :=
  match a with Some _ => a | None => b end.

(** [#getSubPhaseName(phase, dayWithinPhase, phaseDuration)] *)
Definition getSubPhaseName (phase : Phase.t) (dayWithinPhase phaseDuration : Z) : Label :=
  let phaseName := Phase.name phase in
  if phaseDuration <=? 1 then Localize phaseName
  else
    let third := (inject_Z phaseDuration / 3)%Q in
    if Qltb (inject_Z dayWithinPhase) third then
      match strOrNull (Phase.risingName phase) with
      | Some rising => Localize rising
      | None => Format "CALENDARIA.MoonPhase.SubPhase.Rising" (Localize phaseName)
      end
    else if Qle_bool (inject_Z phaseDuration - third)%Q (inject_Z dayWithinPhase) then
      match strOrNull (Phase.fadingName phase) with
      | Some fading => Localize fading
      | None => Format "CALENDARIA.MoonPhase.SubPhase.Fading" (Localize phaseName)
      end
    else Localize phaseName.

(** [((x % L) + L) % L] *)
Definition wrap (x L : Z) : Z := Z.rem (Z.rem x L + L) L.

(** [daysIntoCycle] of [getMoonPhase]. *)
Definition daysIntoCycle (daysSinceReference cycleLength cycleDayAdjust : Z) : Z :=
  let daysIntoCycleRaw := wrap daysSinceReference cycleLength + cycleDayAdjust in
  wrap daysIntoCycleRaw cycleLength.

(** What the guard of [getMoonPhase] returns: the first phase at position
    0, or null when the moon has no phase. *)
Definition firstPhaseFallback (moon : Moon.t) : option MoonPhaseResult.t :=
  match Moon.phases moon with
  | p0 :: _ =>
      Some (MoonPhaseResult.mk (Phase.name p0) (Raw (Phase.name p0))
              (strOr (Phase.icon p0) "") 0 0 None None None)
  | [] => None
  end.

(** [getMoonPhase] from the guard on, for the moon found at [moonIndex]
    and the difference [daysSinceReference] of the two day counts. The
    guard fires when the difference or the cycle length is not finite or
    the cycle length is not positive. *)
Definition moonPhaseOf (moon : Moon.t) (daysSinceReference : Num)
  : option MoonPhaseResult.t :=
  match daysSinceReference, Moon.cycleLength moon with
  | Finite since, Finite cycleLength =>
      if cycleLength <=? 0 then firstPhaseFallback moon
      else
        let cycleDayAdjust :=
          match Moon.cycleDayAdjust moon with Finite a => a | NotFinite => 0 end in
        let daysIntoCycle := daysIntoCycle since cycleLength cycleDayAdjust in
        let normalizedPosition := (inject_Z daysIntoCycle / inject_Z cycleLength)%Q in
        let numPhases :=
          match Moon.phases moon with
          | [] => 8
          | ps => Z.of_nat (List.length ps)
          end in
        let phaseDays := buildPhaseDayDistribution cycleLength numPhases in
        let dayIndex := daysIntoCycle in
        let '(phaseArrayIndex, dayWithinPhase) :=
          match locatePhase phaseDays 0 0 dayIndex with
          | Some found => found
          | None => (0%nat, 0)
          end in
        match nullish_phase (nth_error (Moon.phases moon) phaseArrayIndex)
                            (nth_error (Moon.phases moon) 0) with
        | None => None
        | Some matchedPhase =>
            let phaseDuration := nth phaseArrayIndex phaseDays 0 in
            let subPhaseName := getSubPhaseName matchedPhase dayWithinPhase phaseDuration in
            Some (MoonPhaseResult.mk (Phase.name matchedPhase) subPhaseName
                    (strOr (Phase.icon matchedPhase) "") normalizedPosition dayIndex
                    (Some phaseArrayIndex) (Some dayWithinPhase) (Some phaseDuration))
        end
  | _, _ => firstPhaseFallback moon
  end.

(** The total of a distribution. *)
Definition sumZ (l : list Z) : Z := fold_right Z.add 0 l.

(** The extra day of the [k]-th secondary phase (counted from 0) when
    [extraDays] extra days are handed out in index order. *)
Definition extraFor (extraDays k : Z) : Z := if k <? extraDays then 1 else 0.

End MoonPhases.

(** *** Eras, cycles and the calendar object *)

Module Era.
Record t := mk {
  name : string;
  abbreviation : string;
  startYear : Z;
  endYear : option Z;
  format : option string;
  template : option string
}.
End Era.

Module EraMatch.
Record t := mk {
  name : string;
  abbreviation : string;
  format : string;
  template : option string;
  yearInEra : Z
}.
End EraMatch.

Module Entry.
Record t := mk { name : string }.
End Entry.

Module Cycle.
Record t := mk {
  name : string;
  length : Z;
  offset : Z;
  basedOn : string;
  entries : list Entry.t
}.
End Cycle.

Module CycleValue.
Record t := mk { cycleName : string; entryName : string; index : Num }.
End CycleValue.

(** The time components the host hands to the engine. *)
Module TimeComponents.
Record t := mk {
  year : Z;
  month : Z;
  dayOfMonth : Z;
  hour : Z;
  minute : Z;
  second : Z
}.
Definition asDateLike (c : t) : DateLike.t :=
  DateLike.mk (year c) (month c) (Some (dayOfMonth c)) None (hour c) (minute c) (second c).
End TimeComponents.

(** Arrays of eras live in a store and are handled through references, so
    that sorting in place and copying are told apart. A computation also
    may throw ([None]): the engine reads [this.months.values] unguarded. *)
Module Store.

Definition ref := nat.
Definition t := list (list Era.t).

Definition M (A : Type) : Type := t -> option A * t.

Definition ret {A} (a : A) : M A := fun h => (Some a, h).
Definition throw {A} : M A := fun h => (None, h).
Definition bind {A B} (m : M A) (k : A -> M B) : M B :=
  fun h => match m h with
           | (Some a, h') => k a h'
           | (None, h') => (None, h')
           end.

Definition get (r : ref) (h : t) : list Era.t := nth r h [].

Fixpoint set (r : ref) (v : list Era.t) (h : t) : t :=
  match h, r with
  | [], _ => []
  | _ :: h', O => v :: h'
  | a :: h', S r' => a :: set r' v h'
  end.

(** Reading the array behind a reference. *)
Definition read (r : ref) : M (list Era.t) := fun h => (Some (get r h), h).

(** [[...arr]]: a fresh array with the same elements. *)
Definition spread (r : ref) : M ref :=
  fun h => (Some (List.length h), h ++ [get r h]).

(** Where [x] goes in an already sorted array: behind every element the
    comparator puts strictly before it, in front of the others, which
    keeps equal elements in their original order. *)
Fixpoint insert (cmp : Era.t -> Era.t -> Z) (x : Era.t) (l : list Era.t) : list Era.t :=
  match l with
  | [] => [x]
  | y :: l' => if cmp x y >? 0 then y :: insert cmp x l' else x :: l
  end.

(** The order [Array.prototype.sort] yields: it is stable, so for a
    consistent comparator the result is the one of a stable insertion
    sort. *)
Definition sorted (cmp : Era.t -> Era.t -> Z) (l : list Era.t) : list Era.t :=
  fold_right (insert cmp) [] l.

(** [arr.sort(cmp)]: sorts the array in place and returns it. *)
Definition sort (cmp : Era.t -> Era.t -> Z) (r : ref) : M ref :=
  fun h => (Some r, set r (sorted cmp (get r h)) h).

End Store.

Notation "x <- c1 ;; c2" := (Store.bind c1 (fun x => c2))
  (at level 61, c1 at next level, right associativity).

Module Days.
Record t := mk {
  hoursPerDay : Z;
  minutesPerHour : Z;
  secondsPerMinute : Z;
  daysPerYear : option Z
}.
End Days.

Module Daylight.
Record t := mk {
  enabled : bool;
  shortestDay : Q;
  longestDay : Q;
  winterSolstice : Z;
  summerSolstice : Z
}.
End Daylight.

(** The calendar object ([this]). [months] is [this.months?.values], which
    the schema lets be null; [eras] is a reference to the stored array. *)
Module Calendar.
Record t := mk {
  months : option (list Month.t);
  days : Days.t;
  yearZero : option Z;
  moons : option (list Moon.t);
  eras : option Store.ref;
  cycles : option (list Cycle.t);
  daylight : option Daylight.t
}.
End Calendar.

(** *** The methods of the calendar *)

Module CalendariaCalendar.

Import Store.
#[local] Open Scope string_scope.
#[local] Open Scope list_scope.
#[local] Open Scope Z_scope.

(** [x ?? d] on an integer that may be absent. *)
Definition orZ (x : option Z) (d : Z) : Z :=
  match x with Some v => v | None => d end.

(** [x || d] on an integer. *)
Definition truthyOr (x d : Z) : Z := if x =? 0 then d else x.

(** [Math.ceil(a / b)] for integers. *)
Definition ceilDiv (a b : Z) : Z := - ((- a) / b).

Section Methods.

(** [componentsToTime] is inherited from the host framework: it turns
    year, day of year, hour, minute and second into seconds. *)
Variable componentsToTime : Calendar.t -> Z -> Z -> Z -> Z -> Z -> Num.

(** The cosine interpolation of [_getDaylightHoursForDay] between the
    shortest and the longest day (floating point, transcendental): its
    value for the day of the given time is taken as given. *)
Variable dynamicDaylightHours : Calendar.t -> TimeComponents.t -> Q.

(** [hoursOfDay(time, calendar)] *)
Definition hoursOfDay (time : TimeComponents.t) (calendar : Calendar.t) : Q :=
  let d := Calendar.days calendar in
  let minutes :=
    (inject_Z (TimeComponents.minute time)
     + inject_Z (TimeComponents.second time) / inject_Z (Days.secondsPerMinute d))%Q in
  (inject_Z (TimeComponents.hour time) + minutes / inject_Z (Days.minutesPerHour d))%Q.

(** [_getDaylightHoursForDay(time)] *)
Definition _getDaylightHoursForDay (this : Calendar.t) (time : TimeComponents.t) : Q :=
  let enabled := match Calendar.daylight this with
                 | Some dl => Daylight.enabled dl
                 | None => false
                 end in
  if negb enabled
  then (inject_Z (Days.hoursPerDay (Calendar.days this)) * (1 # 2))%Q
  else dynamicDaylightHours this time.

(** [sunrise(time)] *)
Definition sunrise (this : Calendar.t) (time : TimeComponents.t) : Q :=
  let daylightHrs := _getDaylightHoursForDay this time in
  let midday := (inject_Z (Days.hoursPerDay (Calendar.days this)) / 2)%Q in
  (midday - daylightHrs / 2)%Q.

(** [sunset(time)] *)
Definition sunset (this : Calendar.t) (time : TimeComponents.t) : Q :=
  let daylightHrs := _getDaylightHoursForDay this time in
  let midday := (inject_Z (Days.hoursPerDay (Calendar.days this)) / 2)%Q in
  (midday + daylightHrs / 2)%Q.

(** [daylightHours(time)] *)
Definition daylightHours (this : Calendar.t) (time : TimeComponents.t) : Q :=
  (sunset this time - sunrise this time)%Q.

(** [progressDay(time)] *)
Definition progressDay (this : Calendar.t) (time : TimeComponents.t) : Q :=
  ((hoursOfDay time this - sunrise this time) / daylightHours this time)%Q.

(** The hour [progressNight] works with after its shift. *)
Definition nightHour (this : Calendar.t) (time : TimeComponents.t) : Q :=
  let daylightHours := daylightHours this time in
  let hour := hoursOfDay time this in
  if Qltb hour daylightHours
  then (hour + inject_Z (Days.hoursPerDay (Calendar.days this)))%Q
  else hour.

(** [progressNight(time)] *)
Definition progressNight (this : Calendar.t) (time : TimeComponents.t) : Q :=
  let daylightHours := daylightHours this time in
  let hour := nightHour this time in
  ((hour - sunset this time) / daylightHours)%Q.

(** [solarMidnight(time)] *)
Definition solarMidnight (this : Calendar.t) (time : TimeComponents.t) : Q :=
  let sunsetHour := sunset this time in
  let nightHours :=
    (inject_Z (Days.hoursPerDay (Calendar.days this)) - daylightHours this time)%Q in
  (sunsetHour + nightHours / 2)%Q.

(** [_componentsToDays(components)] *)
Definition _componentsToDays (this : Calendar.t) (components : option DateLike.t) : Num :=
  match components with
  | None => Finite 0
  | Some c =>
      let year := DateLike.year c in
      let month := DateLike.month c in
      let dayOfMonth :=
        match DateLike.dayOfMonth c with
        | Some d => d
        | None => truthyOr (orZ (DateLike.day c) 0) 1 - 1
        end in
      let monthDays := match Calendar.months this with Some ms => ms | None => [] end in
      let dayOfYear :=
        fold_left (fun acc m => acc + truthyOr (Month.days m) 30)
                  (firstn (Z.to_nat month) monthDays) dayOfMonth in
      let worldTime :=
        componentsToTime this year dayOfYear
          (DateLike.hour c) (DateLike.minute c) (DateLike.second c) in
      let d := Calendar.days this in
      let secondsPerDay :=
        truthyOr (Days.hoursPerDay d) 24 * truthyOr (Days.minutesPerHour d) 60
        * truthyOr (Days.secondsPerMinute d) 60 in
      match worldTime with
      | Finite w => Finite (w / secondsPerDay)
      | NotFinite => NotFinite
      end
  end.

(** [getMoonPhase(moonIndex, time)] *)
Definition getMoonPhase (this : Calendar.t) (moonIndex : nat) (time : TimeComponents.t)
  : option MoonPhaseResult.t :=
  match Calendar.moons this with
  | None => None
  | Some moons =>
      match nth_error moons moonIndex with
      | None => None
      | Some moon =>
          match Calendar.months this with
          | None => None
          | Some _ =>
              let currentDays :=
                _componentsToDays this (Some (TimeComponents.asDateLike time)) in
              let referenceDays :=
                _componentsToDays this (Some (Moon.referenceDate moon)) in
              let daysSinceReference := numSub currentDays referenceDays in
              MoonPhases.moonPhaseOf moon daysSinceReference
          end
      end
  end.

(** The comparator handed to [sort]: [(a, b) => b.startYear - a.startYear]. *)
Definition byStartYearDesc (a b : Era.t) : Z := Era.startYear b - Era.startYear a.

(** The order [sort] leaves the copy in: later start years first. *)
Definition laterFirst (a b : Era.t) : Prop := Era.startYear b <= Era.startYear a.

(** The test of the loop of [getCurrentEra]. *)
Definition eraCovers (displayYear : Z) (era : Era.t) : bool :=
  (Era.startYear era <=? displayYear)
  && match Era.endYear era with
     | None => true
     | Some e => displayYear <=? e
     end.

Definition eraResult (era : Era.t) (yearInEra : Z) : EraMatch.t :=
  EraMatch.mk (Era.name era) (Era.abbreviation era)
              (strOr (Era.format era) "suffix") (strOrNull (Era.template era))
              yearInEra.

(** [getCurrentEra(time)] *)
Definition getCurrentEra (this : Calendar.t) (time : TimeComponents.t)
  : M (option EraMatch.t) :=
  match Calendar.eras this with
  | None => ret None
  | Some this_eras =>
      eras <- read this_eras ;;
      if (List.length eras =? 0)%nat then ret None
      else
        let displayYear := TimeComponents.year time + orZ (Calendar.yearZero this) 0 in
        copy <- spread this_eras ;;
        sortedRef <- sort byStartYearDesc copy ;;
        sortedEras <- read sortedRef ;;
        match find (eraCovers displayYear) sortedEras with
        | Some era =>
            ret (Some (eraResult era (displayYear - Era.startYear era + 1)))
        | None =>
            eras' <- read this_eras ;;
            match eras' with
            | era :: _ => ret (Some (eraResult era displayYear))
            | [] => ret None
            end
        end
  end.

(** The epoch values by [basedOn] key. *)
Record EpochValues := mkEpochValues {
  ev_year : Z;
  ev_eraYear : Z;
  ev_month : Z;
  ev_monthDay : Z;
  ev_day : Num;
  ev_yearDay : Z
}.

(** The day of the year as the cycle code computes it; reading
    [this.months.values] throws when the calendar has no months and the
    loop runs at least once. *)
Definition dayOfYearUnguarded (this : Calendar.t) (components : TimeComponents.t) : M Z :=
  let dayOfMonth := TimeComponents.dayOfMonth components in
  if TimeComponents.month components <=? 0 then ret dayOfMonth
  else
    match Calendar.months this with
    | None => throw
    | Some values =>
        ret (fold_left
               (fun acc i => acc + match nth_error values i with
                                   | Some m => Month.days m
                                   | None => 0
                                   end)
               (seq 0 (Z.to_nat (TimeComponents.month components))) dayOfMonth)
    end.

(** [_getCycleEpochValues(components, displayYear)] *)
Definition _getCycleEpochValues (this : Calendar.t) (components : TimeComponents.t)
    (displayYear : Z) : M EpochValues :=
  dayOfYear <- dayOfYearUnguarded this components ;;
  let totalDays := _componentsToDays this (Some (TimeComponents.asDateLike components)) in
  era <- getCurrentEra this
           (TimeComponents.mk (TimeComponents.year components)
              (TimeComponents.month components)
              (TimeComponents.dayOfMonth components) 0 0 0) ;;
  let eraYear := match era with
                 | Some e => EraMatch.yearInEra e
                 | None => displayYear
                 end in
  ret (mkEpochValues displayYear eraYear (TimeComponents.month components)
         (TimeComponents.dayOfMonth components) totalDays dayOfYear).

(** [epochValues[cycle.basedOn] ?? 0] *)
Definition epochValueOf (ev : EpochValues) (basedOn : string) : Num :=
  if String.eqb basedOn "year" then Finite (ev_year ev)
  else if String.eqb basedOn "eraYear" then Finite (ev_eraYear ev)
  else if String.eqb basedOn "month" then Finite (ev_month ev)
  else if String.eqb basedOn "monthDay" then Finite (ev_monthDay ev)
  else if String.eqb basedOn "day" then ev_day ev
  else if String.eqb basedOn "yearDay" then Finite (ev_yearDay ev)
  else Finite 0.

(** The index arithmetic of [getCycleValues] for a finite epoch value, a
    non-zero cycle length and [n = entries.length]. *)
Definition cycleIndexOf (epochValue length offset n : Z) : Z :=
  let cycleNum := epochValue / length in
  let cycleNum :=
    if cycleNum <? 0 then cycleNum + ceilDiv (Z.abs epochValue) n * n else cycleNum in
  let cycleIndex := Z.rem (cycleNum + offset / length) n in
  let normalizedIndex := Z.rem (Z.rem cycleIndex n + n) n in
  normalizedIndex.

(** The body of the loop of [getCycleValues] for one cycle with entries.
    A non-finite epoch value or a zero length makes every intermediate
    value, and the index, [NaN]; [entries[NaN]] is undefined. *)
Definition cycleValueOf (ev : EpochValues) (cycle : Cycle.t) : CycleValue.t :=
  let n := Z.of_nat (List.length (Cycle.entries cycle)) in
  match epochValueOf ev (Cycle.basedOn cycle) with
  | Finite epochValue =>
      if Cycle.length cycle =? 0
      then CycleValue.mk (Cycle.name cycle) "" NotFinite
      else
        let normalizedIndex :=
          cycleIndexOf epochValue (Cycle.length cycle) (Cycle.offset cycle) n in
        let entryName :=
          match nth_error (Cycle.entries cycle) (Z.to_nat normalizedIndex) with
          | Some entry => Entry.name entry
          | None => ""
          end in
        CycleValue.mk (Cycle.name cycle) entryName (Finite normalizedIndex)
  | NotFinite => CycleValue.mk (Cycle.name cycle) "" NotFinite
  end.

(** [getCycleValues(time).values]. The rendered [text] only reads the
    entry names found here and is not modelled. *)
Definition getCycleValues (this : Calendar.t) (time : TimeComponents.t)
  : M (list CycleValue.t) :=
  match Calendar.cycles this with
  | None | Some [] => ret []
  | Some cycles =>
      let displayYear := TimeComponents.year time + orZ (Calendar.yearZero this) 0 in
      epochValues <- _getCycleEpochValues this time displayYear ;;
      ret (map (cycleValueOf epochValues)
               (filter (fun cycle => negb (List.length (Cycle.entries cycle) =? 0)%nat)
                       cycles))
  end.

End Methods.

End CalendariaCalendar.

(** *** Concrete calendars for the examples *)

Module Fixtures.

#[local] Open Scope string_scope.
#[local] Open Scope list_scope.
#[local] Open Scope Z_scope.

(** A host clock with 365-day years, in the units of the calendar. *)
Definition hostClock (this : Calendar.t) (year day hour minute second : Z) : Num :=
  let d := Calendar.days this in
  Finite ((((year * 365 + day) * Days.hoursPerDay d + hour) * Days.minutesPerHour d + minute)
          * Days.secondsPerMinute d + second).

Definition earthDays : Days.t := Days.mk 24 60 60 (Some 365).

Definition twelveMonths : list Month.t :=
  map (fun n => Month.mk n 30 None)
      ["M1"; "M2"; "M3"; "M4"; "M5"; "M6"; "M7"; "M8"; "M9"; "M10"; "M11"; "M12"].

Definition newMoon : Phase.t := Phase.mk "New Moon" None None (Some "new.svg").
Definition fullMoon : Phase.t := Phase.mk "Full Moon" None None None.

Definition firstDay : DateLike.t := DateLike.mk 1 0 None (Some 1) 0 0 0.

(** A moon whose cycle length is zero. *)
Definition stillMoon : Moon.t :=
  Moon.mk "Still" (Finite 0) (Finite 0) [newMoon; fullMoon] firstDay.

(** A moon without phases. *)
Definition barrenMoon : Moon.t := Moon.mk "Barren" (Finite 30) (Finite 0) [] firstDay.

Definition moonCalendar (moon : Moon.t) : Calendar.t :=
  Calendar.mk (Some twelveMonths) earthDays (Some 0) (Some [moon]) None None None.

Definition noon (year month dayOfMonth : Z) : TimeComponents.t :=
  TimeComponents.mk year month dayOfMonth 12 0 0.

(** Two open-ended eras, the later one declared last. *)
Definition firstAge : Era.t := Era.mk "First Age" "FA" 1000 None None None.
Definition secondAge : Era.t := Era.mk "Second Age" "SA" 1500 None None None.

(** The store holding the era list of [eraCalendar] at reference 0. *)
Definition eraStore : Store.t := [[firstAge; secondAge]].

Definition eraCalendar : Calendar.t :=
  Calendar.mk (Some twelveMonths) earthDays (Some 0) None (Some 0%nat) None None.

(** A calendar with the daylight of the schema's defaults, static or
    dynamic. *)
Definition daylightCalendar (enabled : bool) : Calendar.t :=
  Calendar.mk (Some twelveMonths) earthDays (Some 0) None None None
    (Some (Daylight.mk enabled 8 16 355 172)).

(** The interpolation on the winter solstice itself: the progress is 0,
    its cosine 1, and the result the shortest day. *)
Definition winterSolsticeHours (this : Calendar.t) (time : TimeComponents.t) : Q :=
  match Calendar.daylight this with
  | Some dl => Daylight.shortestDay dl
  | None => 0
  end.

(** Seven o'clock in the morning. *)
Definition sevenOClock : TimeComponents.t := TimeComponents.mk 1600 11 25 7 0 0.

(** A zodiac keyed on the month: length 12, offset 0, twelve entries. *)
Definition zodiac : Cycle.t :=
  Cycle.mk "Zodiac" 12 0 "month"
    (map Entry.mk ["Aries"; "Taurus"; "Gemini"; "Cancer"; "Leo"; "Virgo"; "Libra";
                   "Scorpio"; "Sagittarius"; "Capricorn"; "Aquarius"; "Pisces"]).

Definition zodiacCalendar : Calendar.t :=
  Calendar.mk (Some twelveMonths) earthDays (Some 0) None None (Some [zodiac]) None.

End Fixtures.


(** *** leap-year-utils.mjs: validation and legacy configurations *)

Module LeapYearConversion.

Import JsString LeapYearUtils.
#[local] Open Scope string_scope.
#[local] Open Scope list_scope.
#[local] Open Scope Z_scope.

(** What [validatePattern] reports: [{valid: true}], or [{valid: false,
    error}] with one of its four messages ("Pattern is required",
    "Pattern is empty", "Invalid interval: <part>", "Interval must be at
    least 1: <part>"). *)
Inductive Validation :=
| Valid
| PatternRequired
| PatternEmpty
| InvalidInterval (part : string)
| IntervalTooSmall (part : string).

(** The test [/^[!+]?\d+$/]: an optional [!] or [+], then digits only, at
    least one. *)
Definition matchesSpec (part : string) : bool :=
  let digits := match part with
                | String c rest => if isBangOrPlus c then rest else part
                | EmptyString => part
                end in
  (0 <? String.length digits)%nat && allChars isDigit digits.

(** The loop of [validatePattern] over the trimmed parts. *)
Fixpoint validateParts (parts : list string) : Validation :=
  match parts with
  | [] => Valid
  | part :: rest =>
      if negb (matchesSpec part) then InvalidInterval part
      else
        match parseInt (removeAll isBangOrPlus part) with
        | Some num => if num <? 1 then IntervalTooSmall part else validateParts rest
        | None => validateParts rest
        end
  end.

(** [validatePattern(pattern)] *)
Definition validatePattern (pattern : option string) : Validation :=
  match pattern with
  | None | Some EmptyString => PatternRequired
  | Some p =>
      let parts := map trim (split "," p) in
      if (List.length parts =? 0)%nat then PatternEmpty
      else validateParts parts
  end.

(** [convertLegacyConfig(legacyConfig)] *)
Definition convertLegacyConfig (legacyConfig : option LeapYearConfig) : option LeapYearConfig :=
  match legacyConfig with
  | None => None
  | Some cfg =>
      match rule cfg with
      | Some (String _ _) => Some cfg
      | _ =>
          let start := match leapStart cfg with Some s => s | None => 0 end in
          match leapInterval cfg with
          | None => None
          | Some interval =>
              if interval <=? 0 then None
              else Some (mkConfig (Some "simple") (Some interval) None (Some start) None None)
          end
      end
  end.

(** [convertToLegacyConfig(newConfig)] *)
Definition convertToLegacyConfig (newConfig : option LeapYearConfig) : option LeapYearConfig :=
  match newConfig with
  | None => None
  | Some cfg =>
      let rule := match rule cfg with
                  | None | Some EmptyString => "none"
                  | Some r => r
                  end in
      let start := match start cfg with Some s => s | None => 0 end in
      if String.eqb rule "none" then None
      else if String.eqb rule "simple" then
        Some (mkConfig None None (cfg_interval cfg) None (Some start) None)
      else if String.eqb rule "gregorian" then
        Some (mkConfig None None (Some 4) None (Some start) None)
      else Some (mkConfig None None (Some 1) None (Some 0) None)
  end.

(** A configuration with the simple rule. *)
Definition simple (interval start : Z) : option LeapYearConfig :=
  Some (mkConfig (Some "simple") (Some interval) None (Some start) None None).

(** The year whose vote a year casts when the calendar has no year 0. *)
Definition withoutYearZero (year : Z) : Z := if year <? 0 then year + 1 else year.

(** The invariant of a parsed interval. *)
Definition wellFormed (i : Interval) : Prop :=
  1 <= interval i /\ 0 <= offset i < interval i.

End LeapYearConversion.

(** *** The calendar: leap years, month lengths, seasons, solar midday *)

Module Season.
Record t := mk {
  name : string;
  dayStart : option Z;
  dayEnd : option Z;
  monthStart : option Z;
  monthEnd : option Z
}.
End Season.

(** The parts of [this] the methods below read besides those of
    [Calendar.t]: [this.leapYearConfig], [this.years?.leapYear] (with its
    [leapInterval] and [leapStart]) and [this.seasons?.values]. *)
Module CalendarData.
Record t := mk {
  base : Calendar.t;
  leapYearConfig : option LeapYearUtils.LeapYearConfig;
  leapYear : option LeapYearUtils.LeapYearConfig;
  seasons : option (list Season.t)
}.
End CalendarData.

Module CalendarMethods.

Import CalendariaCalendar.
#[local] Open Scope string_scope.
#[local] Open Scope list_scope.
#[local] Open Scope Z_scope.

(** [arr[i]] for a number [i]: undefined outside the array. *)
Definition at_ {A} (arr : list A) (i : Z) : option A :=
  if i <? 0 then None else nth_error arr (Z.to_nat i).

(** [isLeapYear(year)] of the calendar. *)
Definition isLeapYear (this : CalendarData.t) (year : Z) : bool :=
  let advanced :=
    match CalendarData.leapYearConfig this with
    | Some cfg =>
        match LeapYearUtils.rule cfg with
        | Some (String c r) => negb (String.eqb (String c r) "none")
        | _ => false
        end
    | None => false
    end in
  if advanced then LeapYearUtils.isLeapYear (CalendarData.leapYearConfig this) year true
  else
    match CalendarData.leapYear this with
    | None => false
    | Some leapConfig =>
        let start := orZ (LeapYearUtils.leapStart leapConfig) 0 in
        match LeapYearUtils.leapInterval leapConfig with
        | None => false
        | Some interval =>
            if interval <=? 0 then false
            else LeapYearUtils.isLeapYear (LeapYearConversion.simple interval start) year true
        end
    end.

(** [getDaysInMonth(monthIndex, year)] *)
Definition getDaysInMonth (this : CalendarData.t) (monthIndex year : Z) : Z :=
  let values := match Calendar.months (CalendarData.base this) with
                | Some vs => vs
                | None => []
                end in
  match at_ values monthIndex with
  | None => 0
  | Some month =>
      match isLeapYear this year, Month.leapDays month with
      | true, Some leapDays => leapDays
      | _, _ => Month.days month
      end
  end.

(** [getDaysInYear(year)] *)
Definition getDaysInYear (this : CalendarData.t) (year : Z) : Z :=
  let isLeap := isLeapYear this year in
  fold_left
    (fun sum month =>
       let days := match isLeap, Month.leapDays month with
                   | true, Some leapDays => leapDays
                   | _, _ => Month.days month
                   end in
       sum + days)
    (match Calendar.months (CalendarData.base this) with Some vs => vs | None => [] end)
    0.

(** The test [getCurrentSeason] applies to a season in the day-of-year
    format. *)
Definition inDayRange (dayStart dayEnd dayOfYear : Z) : bool :=
  if dayStart <=? dayEnd
  then (dayStart <=? dayOfYear) && (dayOfYear <=? dayEnd)
  else (dayStart <=? dayOfYear) || (dayOfYear <=? dayEnd).

(** The three tests it applies to a season in the month format, for the
    1-indexed month and day of the date. *)
Definition inMonthRange (monthStart monthEnd startDay endDay currentMonth day : Z) : bool :=
  if monthStart <=? monthEnd
  then ((monthStart <? currentMonth) && (currentMonth <? monthEnd))
       || ((currentMonth =? monthStart) && (startDay <=? day))
       || ((currentMonth =? monthEnd) && (day <=? endDay))
  else ((monthStart <? currentMonth) || (currentMonth <? monthEnd))
       || ((currentMonth =? monthStart) && (startDay <=? day))
       || ((currentMonth =? monthEnd) && (day <=? endDay)).

(** Whether a season of the loop of [getCurrentSeason] is returned;
    [None] when reading [this.months.values] throws. *)
Definition seasonMatches (this : CalendarData.t) (components : TimeComponents.t)
    (dayOfYear : Z) (season : Season.t) : option bool :=
  match Season.dayStart season, Season.dayEnd season with
  | Some dayStart, Some dayEnd => Some (inDayRange dayStart dayEnd dayOfYear)
  | _, _ =>
      match Season.monthStart season, Season.monthEnd season with
      | Some monthStart, Some monthEnd =>
          let currentMonth := TimeComponents.month components + 1 in
          let startDay := orZ (Season.dayStart season) 1 in
          let endDay :=
            match Season.dayEnd season with
            | Some e => Some e
            | None =>
                match Calendar.months (CalendarData.base this) with
                | None => None
                | Some values =>
                    Some (match at_ values (monthEnd - 1) with
                          | Some m => Month.days m
                          | None => 30
                          end)
                end
            end in
          match endDay with
          | None => None
          | Some endDay =>
              Some (inMonthRange monthStart monthEnd startDay endDay currentMonth
                      (TimeComponents.dayOfMonth components + 1))
          end
      | _, _ => Some false
      end
  end.

(** The loop of [getCurrentSeason]: the first season that matches. *)
Fixpoint firstSeason (this : CalendarData.t) (components : TimeComponents.t)
    (dayOfYear : Z) (seasons : list Season.t) : option (option Season.t) :=
  match seasons with
  | [] => Some None
  | season :: rest =>
      match seasonMatches this components dayOfYear season with
      | None => None
      | Some true => Some (Some season)
      | Some false => firstSeason this components dayOfYear rest
      end
  end.

(** [getCurrentSeason(time)]: [Some None] is null, [None] a thrown
    TypeError. *)
Definition getCurrentSeason (this : CalendarData.t) (components : TimeComponents.t)
  : option (option Season.t) :=
  match CalendarData.seasons this with
  | None | Some [] => Some None
  | Some seasons =>
      match fst (dayOfYearUnguarded (CalendarData.base this) components []) with
      | None => None
      | Some dayOfYear =>
          match firstSeason this components dayOfYear seasons with
          | None => None
          | Some (Some season) => Some (Some season)
          | Some None => Some (nth_error seasons 0)
          end
      end
  end.

Section Solar.

Variable dynamicDaylightHours : Calendar.t -> TimeComponents.t -> Q.

(** [solarMidday(time)] *)
Definition solarMidday (this : Calendar.t) (time : TimeComponents.t) : Q :=
  ((sunrise dynamicDaylightHours this time + sunset dynamicDaylightHours this time) / 2)%Q.

End Solar.

(** A lexicographic comparison of (month, day) pairs. *)
Definition dateLe (m1 d1 m2 d2 : Z) : Prop := m1 < m2 \/ (m1 = m2 /\ d1 <= d2).

End CalendarMethods.

(** *** Moon phases: the thirds of a phase in whole days *)

Module MoonThirds.

Import MoonPhases.
#[local] Open Scope string_scope.
#[local] Open Scope Z_scope.

(** The label of the first third of a phase. *)
Definition risingLabel (phase : Phase.t) : Label :=
  match strOrNull (Phase.risingName phase) with
  | Some rising => Localize rising
  | None => Format "CALENDARIA.MoonPhase.SubPhase.Rising" (Localize (Phase.name phase))
  end.

(** The label of the last third of a phase. *)
Definition fadingLabel (phase : Phase.t) : Label :=
  match strOrNull (Phase.fadingName phase) with
  | Some fading => Localize fading
  | None => Format "CALENDARIA.MoonPhase.SubPhase.Fading" (Localize (Phase.name phase))
  end.

(** The sub-phase by counting days: rising while three times the day is
    below the duration, fading once it has reached twice the duration. *)
Definition subPhaseByThirds (phase : Phase.t) (dayWithinPhase phaseDuration : Z) : Label :=
  if phaseDuration <=? 1 then Localize (Phase.name phase)
  else if 3 * dayWithinPhase <? phaseDuration then risingLabel phase
  else if 2 * phaseDuration <=? 3 * dayWithinPhase then fadingLabel phase
  else Localize (Phase.name phase).

End MoonThirds.

(** *** Eras: the choice in one pass *)

Module EraChoice.

Import CalendariaCalendar.
#[local] Open Scope Z_scope.

(** Going through the eras from the last defined to the first and
    keeping the covering era with the latest start year, the earlier
    defined one on a tie. *)
Definition keepLatest (displayYear : Z) (era : Era.t) (best : option Era.t) : option Era.t :=
  if eraCovers displayYear era then
    match best with
    | Some b => if Era.startYear b >? Era.startYear era then Some b else Some era
    | None => Some era
    end
  else best.

Definition latestCovering (displayYear : Z) (eras : list Era.t) : option Era.t :=
  fold_right (keepLatest displayYear) None eras.

End EraChoice.

(** *** Cycles: what a returned value says *)

Module CycleValues.

#[local] Open Scope string_scope.
#[local] Open Scope Z_scope.

(** What one returned value says about its cycle. *)
Definition describes (cycle : Cycle.t) (value : CycleValue.t) : Prop :=
  CycleValue.cycleName value = Cycle.name cycle
  /\ match CycleValue.index value with
     | Finite i =>
         0 <= i < Z.of_nat (List.length (Cycle.entries cycle))
         /\ exists entry, nth_error (Cycle.entries cycle) (Z.to_nat i) = Some entry
                          /\ CycleValue.entryName value = Entry.name entry
     | NotFinite => CycleValue.entryName value = ""
     end.

End CycleValues.

(** *** Further concrete calendars *)

Module Almanac.

#[local] Open Scope string_scope.
#[local] Open Scope list_scope.
#[local] Open Scope Z_scope.


(** A moon of eight phases that goes round in six days. *)
Definition swift : Moon.t :=
  Moon.mk "Swift" (Finite 6) (Finite 0) (repeat Fixtures.newMoon 8) Fixtures.firstDay.

(** A summer and a winter that wraps around the end of the year, in days
    of the year. *)
Definition summer : Season.t := Season.mk "Summer" (Some 78) (Some 353) None None.
Definition winter : Season.t := Season.mk "Winter" (Some 354) (Some 77) None None.

Definition seasonCalendar : CalendarData.t :=
  CalendarData.mk Fixtures.eraCalendar None None (Some [summer; winter]).

(** A calendar that keeps only the legacy leap year settings: every
    fourth year from year 1. *)
Definition legacyCalendar : CalendarData.t :=
  CalendarData.mk Fixtures.eraCalendar None
    (Some (LeapYearUtils.mkConfig None None (Some 4) None (Some 1) None)) None.

(** A calendar with a zodiac and no months loaded. *)
Definition bareCalendar : Calendar.t :=
  Calendar.mk None Fixtures.earthDays (Some 0) None None (Some [Fixtures.zodiac]) None.

(** A second era that starts with the first age. *)
Definition twinAge : Era.t := Era.mk "Twin Age" "TA" 1000 None None None.

End Almanac.

(** * Properties *)

(** ** The remainder operator *)

Module RemFacts.

#[local] Open Scope Z_scope.

(** [%] differs from the mathematical remainder by a multiple of the
    divisor. *)
Lemma rem_mod_same y n : 0 < n -> (Z.rem y n) mod n = y mod n.
Proof.
  intros Hn. pose proof (Z.quot_rem' y n) as H.
  rewrite H at 2.
  replace (n * Z.quot y n + Z.rem y n) with (Z.rem y n + Z.quot y n * n) by lia.
  symmetry. apply Z_mod_plus_full.
Qed.

Lemma rem_lower y n : 0 < n -> - n < Z.rem y n < n.
Proof.
  intros Hn. pose proof (Z.rem_bound_abs y n ltac:(lia)). lia.
Qed.

(** [((y % n) + n) % n] is the mathematical remainder. *)
Lemma rem_wrap y n : 0 < n -> Z.rem (Z.rem y n + n) n = y mod n.
Proof.
  intros Hn. pose proof (rem_lower y n Hn).
  rewrite Z.rem_mod_nonneg by lia.
  replace (Z.rem y n + n) with (Z.rem y n + 1 * n) by lia.
  rewrite Z_mod_plus_full. apply rem_mod_same, Hn.
Qed.

Lemma rem_nonneg y n : 0 <= y -> 0 < n -> Z.rem y n = y mod n.
Proof. intros. apply Z.rem_mod_nonneg; lia. Qed.

End RemFacts.

(** ** Text of integers and its reading by [parseInt] *)

Module JsStringFacts.

Import JsString.
#[local] Open Scope string_scope.
#[local] Open Scope list_scope.
#[local] Open Scope Z_scope.

Lemma digitChar_isDigit d : (d < 10)%nat -> isDigit (digitChar d) = true.
Proof.
  intros H. do 10 (destruct d as [|d]; [vm_compute; reflexivity|]). lia.
Qed.

Lemma digitChar_value d : (d < 10)%nat -> digitValue (digitChar d) = Z.of_nat d.
Proof.
  intros H. do 10 (destruct d as [|d]; [vm_compute; reflexivity|]). lia.
Qed.

Lemma isDigit_notWhiteSpace c : isDigit c = true -> notWhiteSpace c = true.
Proof.
  destruct c as [[] [] [] [] [] [] [] []]; vm_compute; congruence.
Qed.

Lemma isDigit_not_sign c :
  isDigit c = true -> Ascii.eqb c "-" = false /\ Ascii.eqb c "+" = false /\ Ascii.eqb c "!" = false.
Proof.
  destruct c as [[] [] [] [] [] [] [] []]; vm_compute; intuition congruence.
Qed.

Lemma allChars_impl (P Q : ascii -> bool) s :
  (forall c, P c = true -> Q c = true) -> allChars P s = true -> allChars Q s = true.
Proof.
  intros HPQ. induction s as [|c s IH]; simpl; [reflexivity|].
  intros H. apply andb_true_iff in H as [Hc Hs].
  rewrite (HPQ _ Hc), (IH Hs). reflexivity.
Qed.

Lemma digitsToString_allDigits ds :
  Forall (fun d => (d < 10)%nat) ds -> allChars isDigit (digitsToString ds) = true.
Proof.
  induction 1 as [|d ds Hd _ IH]; cbn [allChars digitsToString]; [reflexivity|].
  rewrite (digitChar_isDigit _ Hd), IH. reflexivity.
Qed.

Lemma trimStart_head c s : isWhiteSpace c = false -> trimStart (String c s) = String c s.
Proof. intros H. simpl. rewrite H. reflexivity. Qed.

Lemma trimEnd_clean s : allChars notWhiteSpace s = true -> trimEnd s = s.
Proof.
  induction s as [|c s IH]; simpl; [reflexivity|].
  intros H. apply andb_true_iff in H as [Hc Hs].
  rewrite (IH Hs). unfold notWhiteSpace in Hc. apply negb_true_iff in Hc.
  destruct s; [rewrite Hc|]; reflexivity.
Qed.

Lemma trim_clean s : allChars notWhiteSpace s = true -> trim s = s.
Proof.
  intros H. unfold trim.
  destruct s as [|c s]; [reflexivity|].
  simpl in H. apply andb_true_iff in H as [Hc Hs].
  rewrite trimStart_head by (apply negb_true_iff; exact Hc).
  apply trimEnd_clean. simpl. rewrite Hc, Hs. reflexivity.
Qed.

Lemma includes_absent s c :
  allChars (fun d => negb (Ascii.eqb d c)) s = true -> includes s c = false.
Proof.
  induction s as [|d s IH]; simpl; [reflexivity|].
  intros H. apply andb_true_iff in H as [Hd Hs].
  apply negb_true_iff in Hd. rewrite Hd, (IH Hs). reflexivity.
Qed.

Lemma removeAll_absent cls s :
  allChars (fun d => negb (cls d)) s = true -> removeAll cls s = s.
Proof.
  induction s as [|d s IH]; simpl; [reflexivity|].
  intros H. apply andb_true_iff in H as [Hd Hs].
  apply negb_true_iff in Hd. rewrite Hd, (IH Hs). reflexivity.
Qed.

Lemma parseDigits_digits ds : forall a,
  Forall (fun d => (d < 10)%nat) ds ->
  parseDigits (Some a) (digitsToString ds) = Some (digitsValue a ds).
Proof.
  induction ds as [|d ds IH]; intros a H; [reflexivity|].
  inversion H as [|? ? Hd Hds]; subst.
  cbn [digitsToString parseDigits digitsValue fold_left].
  rewrite (digitChar_isDigit _ Hd), (digitChar_value _ Hd).
  apply IH, Hds.
Qed.

Lemma parseDigits_fresh ds :
  ds <> [] -> Forall (fun d => (d < 10)%nat) ds ->
  parseDigits None (digitsToString ds) = Some (digitsValue 0 ds).
Proof.
  intros Hne H. destruct ds as [|d ds]; [congruence|].
  inversion H as [|? ? Hd Hds]; subst.
  cbn [digitsToString parseDigits digitsValue fold_left].
  rewrite (digitChar_isDigit _ Hd), (digitChar_value _ Hd).
  apply parseDigits_digits, Hds.
Qed.

(** [parseInt] reads a signed digit sequence back. *)
Lemma parseInt_digits (negative : bool) ds :
  ds <> [] -> Forall (fun d => (d < 10)%nat) ds ->
  parseInt (String.append (if negative then "-" else "") (digitsToString ds))
  = Some (if negative then - digitsValue 0 ds else digitsValue 0 ds).
Proof.
  intros Hne H. unfold parseInt. destruct negative; cbn [String.append].
  - rewrite trimStart_head by reflexivity.
    rewrite (parseDigits_fresh _ Hne H). reflexivity.
  - destruct ds as [|d ds]; [congruence|].
    pose proof (parseDigits_fresh _ Hne H) as HP.
    inversion H as [|? ? Hd Hds]; subst.
    cbn [digitsToString] in *.
    pose proof (digitChar_isDigit _ Hd) as Hdig.
    pose proof (isDigit_notWhiteSpace _ Hdig) as Hws.
    destruct (isDigit_not_sign _ Hdig) as (Hm & Hp & _).
    rewrite trimStart_head by (apply negb_true_iff; exact Hws).
    destruct (digitChar d) as [b0 b1 b2 b3 b4 b5 b6 b7] eqn:E.
    destruct b0, b1, b2, b3, b4, b5, b6, b7; try exact HP; discriminate.
Qed.

(** The digits [toString] produces. *)
Lemma natDigits_nonempty fuel : forall n acc, acc <> [] -> natDigits fuel n acc <> [].
Proof.
  induction fuel as [|fuel IH]; intros n acc H; cbn [natDigits]; [exact H|].
  destruct (n / 10 =? 0); [discriminate|]. apply IH. discriminate.
Qed.

Lemma natDigits_small fuel : forall n acc,
  0 <= n -> Forall (fun d => (d < 10)%nat) acc ->
  Forall (fun d => (d < 10)%nat) (natDigits fuel n acc).
Proof.
  induction fuel as [|fuel IH]; intros n acc Hn H; cbn [natDigits]; [exact H|].
  assert (Hd : (Z.to_nat (n mod 10) < 10)%nat).
  { pose proof (Z.mod_pos_bound n 10 ltac:(lia)). lia. }
  destruct (n / 10 =? 0).
  - constructor; assumption.
  - apply IH; [apply Z.div_pos; lia | constructor; assumption].
Qed.

Lemma natDigits_value fuel : forall n acc,
  0 <= n < 2 ^ Z.of_nat fuel ->
  digitsValue 0 (natDigits fuel n acc) = digitsValue n acc.
Proof.
  induction fuel as [|fuel IH]; intros n acc Hn; cbn [natDigits].
  - change (2 ^ Z.of_nat 0) with 1 in Hn. replace n with 0 by lia. reflexivity.
  - pose proof (Z.mod_pos_bound n 10 ltac:(lia)) as Hm.
    pose proof (Z.div_mod n 10 ltac:(lia)) as Hdm.
    destruct (n / 10 =? 0) eqn:E.
    + apply Z.eqb_eq in E. unfold digitsValue. cbn [fold_left].
      f_equal. rewrite Z2Nat.id by lia. lia.
    + rewrite IH.
      * unfold digitsValue. cbn [fold_left]. f_equal. rewrite Z2Nat.id by lia. lia.
      * rewrite Nat2Z.inj_succ, Z.pow_succ_r in Hn by lia.
        split; [apply Z.div_pos; lia|].
        apply Z.div_lt_upper_bound; lia.
Qed.

Lemma toString_fuel n : 0 <= n -> n < 2 ^ Z.of_nat (S (Z.to_nat (Z.log2 n))).
Proof.
  intros Hn. rewrite Nat2Z.inj_succ, Z2Nat.id by apply Z.log2_nonneg.
  destruct (Z.eq_dec n 0) as [->|Hz]; [reflexivity|].
  apply Z.log2_spec. lia.
Qed.

(** [toString n] is a sign followed by the digits of [|n|]. *)
Lemma toString_digits n :
  exists ds, ds <> [] /\ Forall (fun d => (d < 10)%nat) ds /\
             digitsValue 0 ds = Z.abs n /\
             toString n = String.append (if n <? 0 then "-" else "") (digitsToString ds).
Proof.
  exists (natDigits (S (Z.to_nat (Z.log2 (Z.abs n)))) (Z.abs n) []).
  repeat split.
  - cbn [natDigits]. destruct (Z.abs n / 10 =? 0); [discriminate|].
    apply natDigits_nonempty. discriminate.
  - apply natDigits_small; [lia | constructor].
  - rewrite natDigits_value; [reflexivity|].
    split; [lia | apply toString_fuel; lia].
  - unfold toString. destruct (n <? 0); reflexivity.
Qed.

(** [parseInt (String n) = n] *)
Lemma parseInt_toString n : parseInt (toString n) = Some n.
Proof.
  destruct (toString_digits n) as (ds & Hne & Hds & Hv & ->).
  rewrite (parseInt_digits _ _ Hne Hds), Hv.
  destruct (n <? 0) eqn:E; f_equal.
  - apply Z.ltb_lt in E. lia.
  - apply Z.ltb_ge in E. lia.
Qed.

End JsStringFacts.

(** ** Leap years *)

Module LeapYearFacts.

Import JsString JsStringFacts LeapYearUtils.
#[local] Open Scope string_scope.
#[local] Open Scope list_scope.
#[local] Open Scope Z_scope.

(** On a string without white space [trim] does nothing, which leaves
    the three reads of [parseInterval]. *)
Lemma parseInterval_clean s off :
  allChars notWhiteSpace s = true ->
  parseInterval s off =
  let i := Z.max 1 (orElse (parseInt (removeAll isBangOrPlus s)) 1) in
  mkInterval i (includes s "!") (normalizedOffset i off (includes s "+")).
Proof.
  intros H. unfold parseInterval. rewrite (trim_clean _ H). reflexivity.
Qed.

Lemma max_orElse n : Z.max 1 (orElse (Some n) 1) = Z.max 1 n.
Proof.
  unfold orElse. destruct (n =? 0) eqn:E; [|reflexivity].
  apply Z.eqb_eq in E. subst. reflexivity.
Qed.

Section DigitStrings.

Variable ds : list nat.
Hypothesis ds_digits : Forall (fun d => (d < 10)%nat) ds.

Let D := digitsToString ds.

Lemma digits_clean : allChars notWhiteSpace D = true.
Proof.
  apply allChars_impl with (P := isDigit); [apply isDigit_notWhiteSpace|].
  apply digitsToString_allDigits, ds_digits.
Qed.

Lemma digits_no_bang : includes D "!" = false.
Proof.
  apply includes_absent, allChars_impl with (P := isDigit).
  - intros c Hc. destruct (isDigit_not_sign c Hc) as (_ & _ & ->). reflexivity.
  - apply digitsToString_allDigits, ds_digits.
Qed.

Lemma digits_no_plus : includes D "+" = false.
Proof.
  apply includes_absent, allChars_impl with (P := isDigit).
  - intros c Hc. destruct (isDigit_not_sign c Hc) as (_ & -> & _). reflexivity.
  - apply digitsToString_allDigits, ds_digits.
Qed.

Lemma digits_kept : removeAll isBangOrPlus D = D.
Proof.
  apply removeAll_absent, allChars_impl with (P := isDigit).
  - intros c Hc. unfold isBangOrPlus.
    destruct (isDigit_not_sign c Hc) as (_ & -> & ->). reflexivity.
  - apply digitsToString_allDigits, ds_digits.
Qed.

(** [parseInterval] on a spec written digit by digit, with an optional
    prefix and an optional minus sign. *)
Lemma parseInterval_digits (p : Prefix) (negative : bool) (off : Z) :
  ds <> [] ->
  let n := if negative then - digitsValue 0 ds else digitsValue 0 ds in
  parseInterval (specDigits p negative ds) off
  = mkInterval (Z.max 1 n) (isBang p) (normalizedOffset (Z.max 1 n) off (isPlus p)).
Proof.
  intros Hne n.
  pose proof digits_clean as Hc. pose proof digits_no_bang as Hb.
  pose proof digits_no_plus as Hp. pose proof digits_kept as Hk.
  pose proof (parseInt_digits negative ds Hne ds_digits) as HP.
  fold D in HP. unfold specDigits. fold D.
  rewrite parseInterval_clean.
  - destruct p, negative;
      cbn [prefixString String.append removeAll includes isBang isPlus] in *;
      repeat match goal with
             | |- context [isBangOrPlus ?c] =>
                 let v := eval vm_compute in (isBangOrPlus c) in
                 change (isBangOrPlus c) with v; cbv iota
             | |- context [Ascii.eqb ?a ?b] =>
                 let v := eval vm_compute in (Ascii.eqb a b) in
                 change (Ascii.eqb a b) with v
             end;
      rewrite ?Hk, ?Hb, ?Hp, ?HP; cbn [orb]; cbv zeta;
      rewrite max_orElse; reflexivity.
  - destruct p, negative; cbn [prefixString String.append allChars];
      rewrite Hc; reflexivity.
Qed.

End DigitStrings.

(** The vote sum is what the reducer of [intersectsYear] accumulates. *)
Lemma fold_tally intervals year yz : forall acc,
  fold_left tally (map (fun i => voteOnYear i year yz) intervals) acc
  = acc + voteSum intervals year yz.
Proof.
  unfold voteSum.
  induction intervals as [|i l IH]; intros acc; cbn [map fold_left fold_right]; [lia|].
  rewrite IH. destruct (voteOnYear i year yz); cbn [tally voteWeight]; lia.
Qed.

Lemma intersectsYear_total intervals year yz :
  intersectsYear intervals year yz = (voteSum intervals year yz >? 0).
Proof.
  unfold intersectsYear. destruct intervals as [|i l]; [reflexivity|].
  cbv zeta. rewrite fold_tally. reflexivity.
Qed.

(** The double remainder brings the offset into the interval. *)
Lemma normalizedOffset_range i off b :
  1 <= i ->
  normalizedOffset i off b = (if (i =? 1) || b then 0 else off mod i)
  /\ 0 <= normalizedOffset i off b < i.
Proof.
  intros Hi. unfold normalizedOffset.
  destruct ((i =? 1) || b); [split; [reflexivity | lia]|].
  rewrite RemFacts.rem_wrap by lia.
  replace (i + off) with (off + 1 * i) by lia. rewrite Z_mod_plus_full.
  split; [reflexivity | apply Z.mod_pos_bound; lia].
Qed.

(** C3 (as amended): for every integer [n], written in decimal and
    optionally prefixed with [!] or [+], and every offset, [parseInterval]
    returns [interval = max(1, n)] (not [max(1, |n|)]: a negative [n] is
    clamped to 1), [subtracts] exactly when the prefix is [!], and offset
    [0] when the interval is 1 or the prefix is [+], else
    [((interval + offset) % interval + interval) % interval]. *)
Theorem parseInterval_spec (p : Prefix) (n off : Z) :
  parseInterval (specString p n) off
  = mkInterval (Z.max 1 n) (isBang p) (normalizedOffset (Z.max 1 n) off (isPlus p)).
Proof.
  unfold specString.
  destruct (toString_digits n) as (ds & Hne & Hds & Hv & ->).
  pose proof (parseInterval_digits ds Hds p (n <? 0) off Hne) as H.
  unfold specDigits in H. rewrite H. cbv zeta. rewrite Hv.
  assert ((if n <? 0 then - Z.abs n else Z.abs n) = n) as ->; [|reflexivity].
  destruct (n <? 0) eqn:E; [apply Z.ltb_lt in E | apply Z.ltb_ge in E]; lia.
Qed.

(** C3, the claim as written fails on a negative integer: the spec string
    [-4] yields interval 1, while [max(1, |-4|)] is 4. *)
Lemma parseInterval_abs_counterexample :
  specString NoPrefix (-4) = "-4"
  /\ interval (parseInterval (specString NoPrefix (-4)) 0) = 1
  /\ interval (parseInterval (specString NoPrefix (-4)) 0) <> Z.max 1 (Z.abs (-4)).
Proof.
  vm_compute. repeat split; congruence.
Qed.

(** [%] by a positive interval is zero exactly when the mathematical
    remainder is. *)
Lemma rem_zero_mod y n : 0 < n -> (Z.rem y n =? 0) = (y mod n =? 0).
Proof.
  intros Hn.
  destruct (Z.eqb_spec (Z.rem y n) 0) as [E|E], (Z.eqb_spec (y mod n) 0) as [E'|E'];
    try reflexivity; exfalso.
  - apply E'. rewrite <- (RemFacts.rem_mod_same y n Hn), E. reflexivity.
  - apply E. apply Z.rem_divide; [lia|]. apply Z.mod_divide; [lia | exact E'].
Qed.

(** The gregorian pattern read with start offset 0, and the rule it votes
    for: divisible by 400, or by 4 and not by 100. *)
Lemma gregorian_rule year :
  isLeapYear (gregorian 0) year true = true
  <-> (year mod 400 = 0 \/ (year mod 4 = 0 /\ year mod 100 <> 0)).
Proof.
  change (isLeapYear (gregorian 0) year true)
    with (intersectsYear (parsePattern (Some "400,!100,4") 0) year true).
  replace (parsePattern (Some "400,!100,4") 0)
    with [mkInterval 400 false 0; mkInterval 100 true 0; mkInterval 4 false 0]
    by (vm_compute; reflexivity).
  rewrite intersectsYear_total, Z.gtb_gt.
  unfold voteSum, voteOnYear. cbn [map fold_right interval subtracts offset negb andb].
  replace (year - 0) with year by lia.
  change (400 =? 0) with false. change (100 =? 0) with false. change (4 =? 0) with false.
  cbn [negb andb].
  rewrite !rem_zero_mod by lia.
  destruct (Z.eqb_spec (year mod 400) 0), (Z.eqb_spec (year mod 100) 0),
    (Z.eqb_spec (year mod 4) 0); cbn [voteWeight]; split; intros H; try lia;
    exfalso; Z.div_mod_to_equations; lia.
Qed.

(** C4: with the gregorian rule and start offset 0, 2000 and 2024 are leap
    years and 1900 and 2023 are not. *)
Theorem isLeapYear_gregorian_examples :
  isLeapYear (gregorian 0) 2000 true = true
  /\ isLeapYear (gregorian 0) 1900 true = false
  /\ isLeapYear (gregorian 0) 2024 true = true
  /\ isLeapYear (gregorian 0) 2023 true = false.
Proof.
  vm_compute. repeat split; reflexivity.
Qed.

(** C5: for a non-empty list of intervals, [intersectsYear] says leap
    exactly when the votes (allow +1, deny -1, abstain 0) sum to more
    than 0; a sum of exactly 0 is not leap. *)
Theorem intersectsYear_votes (intervals : list Interval) (year : Z) (yearZeroExists : bool) :
  intervals <> [] ->
  (intersectsYear intervals year yearZeroExists = true
     <-> voteSum intervals year yearZeroExists > 0)
  /\ (voteSum intervals year yearZeroExists = 0
      -> intersectsYear intervals year yearZeroExists = false).
Proof.
  intros _. rewrite intersectsYear_total. split.
  - rewrite Z.gtb_gt. lia.
  - intros ->. reflexivity.
Qed.

(** The gregorian pattern at 1900: one allow, one deny, a tie. *)
Lemma intersectsYear_votes_witness :
  parsePattern (Some "400,!100,4") 0 <> []
  /\ voteSum (parsePattern (Some "400,!100,4") 0) 1900 true = 0
  /\ intersectsYear (parsePattern (Some "400,!100,4") 0) 1900 true = false.
Proof.
  assert (Hne : parsePattern (Some "400,!100,4") 0 <> []) by (vm_compute; discriminate).
  split; [exact Hne|].
  assert (Hz : voteSum (parsePattern (Some "400,!100,4") 0) 1900 true = 0)
    by (vm_compute; reflexivity).
  split; [exact Hz|].
  exact (proj2 (intersectsYear_votes _ 1900 true Hne) Hz).
Defined.

End LeapYearFacts.

(** ** Moon phases *)

Module MoonFacts.

Import MoonPhases.
#[local] Open Scope list_scope.
#[local] Open Scope Z_scope.

(** The loop of the 8-phase branch, unrolled. *)
Lemma distribution_eight_unrolled cycleLength :
  let primary := cycleLength / 8 in
  let remaining := cycleLength - primary * 2 in
  let secondary := remaining / 6 in
  let extra := extraFor (Z.rem remaining 6) in
  buildPhaseDayDistribution cycleLength 8
  = [primary; secondary + extra 0; secondary + extra 1; secondary + extra 2;
     primary; secondary + extra 3; secondary + extra 4; secondary + extra 5].
Proof.
  reflexivity.
Qed.

(** C6: for every integer cycle length the 8-phase distribution gives
    phases 0 and 4 [floor(cycleLength/8)] days each and every secondary
    phase [floor(remaining/6)] days, plus one for the earliest
    [remaining % 6] of them in index order, where
    [remaining = cycleLength - 2*floor(cycleLength/8)]; for a cycle length
    that is not negative [%] is the mathematical remainder; a 30-day
    cycle yields [3,4,4,4,3,4,4,4], 30 days in all. *)
Theorem distribution_eight (cycleLength : Z) :
  let primary := cycleLength / 8 in
  let remaining := cycleLength - 2 * primary in
  let secondary := remaining / 6 in
  let extra := extraFor (Z.rem remaining 6) in
  buildPhaseDayDistribution cycleLength 8
  = [primary; secondary + extra 0; secondary + extra 1; secondary + extra 2;
     primary; secondary + extra 3; secondary + extra 4; secondary + extra 5]
  /\ (0 <= cycleLength -> Z.rem remaining 6 = remaining mod 6)
  /\ buildPhaseDayDistribution 30 8 = [3; 4; 4; 4; 3; 4; 4; 4]
  /\ sumZ (buildPhaseDayDistribution 30 8) = 30.
Proof.
  cbv zeta. repeat split.
  - rewrite distribution_eight_unrolled. cbv zeta.
    replace (cycleLength / 8 * 2) with (2 * (cycleLength / 8)) by lia.
    reflexivity.
  - intros H. apply RemFacts.rem_nonneg; [|lia].
    pose proof (Z.div_mod cycleLength 8 ltac:(lia)).
    pose proof (Z.mod_pos_bound cycleLength 8 ltac:(lia)). lia.
Qed.

Lemma distribution_eight_witness :
  0 <= 30 /\ Z.rem (30 - 2 * (30 / 8)) 6 = (30 - 2 * (30 / 8)) mod 6.
Proof.
  split; [lia|].
  exact (proj1 (proj2 (distribution_eight 30)) ltac:(lia)).
Defined.

Lemma sumZ_app l1 l2 : sumZ (l1 ++ l2) = sumZ l1 + sumZ l2.
Proof.
  unfold sumZ. induction l1 as [|a l1 IH]; cbn [app fold_right]; lia.
Qed.

(** The even split hands its remainder to the first phases. *)
Lemma even_split_sum base r : forall k : nat,
  sumZ (map (fun i => base + (if Z.of_nat i <? r then 1 else 0)) (seq 0 k))
  = Z.of_nat k * base + Z.max 0 (Z.min (Z.of_nat k) r).
Proof.
  induction k as [|k IH]; [cbn [seq map sumZ fold_right]; lia|].
  rewrite seq_S, map_app, sumZ_app, IH. cbn [map sumZ fold_right Nat.add].
  destruct (Z.ltb_spec (Z.of_nat k) r); lia.
Qed.

Lemma even_split_nonneg base r (k : nat) :
  0 <= base ->
  Forall (fun d => 0 <= d)
         (map (fun i => base + (if Z.of_nat i <? r then 1 else 0)) (seq 0 k)).
Proof.
  intros Hb. apply Forall_forall. intros d Hd.
  apply in_map_iff in Hd as (i & <- & _).
  destruct (Z.of_nat i <? r); lia.
Qed.

(** The three facts of the invariant, for both branches. *)
Lemma distribution_shape cycleLength numPhases :
  0 <= cycleLength -> 1 <= numPhases ->
  Z.of_nat (List.length (buildPhaseDayDistribution cycleLength numPhases)) = numPhases
  /\ Forall (fun d => 0 <= d) (buildPhaseDayDistribution cycleLength numPhases)
  /\ sumZ (buildPhaseDayDistribution cycleLength numPhases) = cycleLength.
Proof.
  intros HL Hn. destruct (Z.eq_dec numPhases 8) as [->|Hne].
  - rewrite distribution_eight_unrolled. cbv zeta.
    pose proof (Z.div_mod cycleLength 8 ltac:(lia)) as H8.
    pose proof (Z.mod_pos_bound cycleLength 8 ltac:(lia)) as B8.
    set (primary := cycleLength / 8) in *.
    assert (Hp : 0 <= primary) by (apply Z.div_pos; lia).
    assert (Hrem : 0 <= cycleLength - primary * 2) by lia.
    set (remaining := cycleLength - primary * 2) in *.
    rewrite (RemFacts.rem_nonneg remaining 6) by lia.
    pose proof (Z.div_mod remaining 6 ltac:(lia)) as H6.
    pose proof (Z.mod_pos_bound remaining 6 ltac:(lia)) as B6.
    assert (Hs : 0 <= remaining / 6) by (apply Z.div_pos; lia).
    set (secondary := remaining / 6) in *. set (e := remaining mod 6) in *.
    unfold extraFor. split; [reflexivity|]. split.
    + repeat constructor; try lia;
        match goal with |- context [?a <? e] => destruct (a <? e); lia end.
    + cbn [sumZ fold_right].
      assert (He : e = 0 \/ e = 1 \/ e = 2 \/ e = 3 \/ e = 4 \/ e = 5) by lia.
      destruct He as [He|[He|[He|[He|[He|He]]]]]; rewrite He in *;
        cbn [Z.ltb Z.compare Pos.compare Pos.compare_cont]; lia.
  - unfold buildPhaseDayDistribution.
    destruct (Z.eqb_spec numPhases 8) as [|_]; [contradiction|]. cbn [negb].
    pose proof (Z.div_mod cycleLength numPhases ltac:(lia)) as Hdm.
    pose proof (Z.mod_pos_bound cycleLength numPhases ltac:(lia)) as Hb.
    rewrite (RemFacts.rem_nonneg cycleLength numPhases) by lia.
    assert (Hbase : 0 <= cycleLength / numPhases) by (apply Z.div_pos; lia).
    split; [|split].
    + rewrite length_map, length_seq. lia.
    + apply even_split_nonneg, Hbase.
    + rewrite even_split_sum. rewrite Z2Nat.id by lia. lia.
Qed.

(** Walking the cumulative sums finds the phase that holds a day below
    the total. *)
Lemma locatePhase_finds l : forall (i : nat) (c d : Z),
  Forall (fun x => 0 <= x) l ->
  c <= d < c + sumZ l ->
  exists (j : nat) (w : Z),
    locatePhase l i c d = Some (j, w)
    /\ (i <= j < i + List.length l)%nat
    /\ 0 <= w < nth (j - i) l 0.
Proof.
  induction l as [|x l IH]; intros i c d Hl Hd; cbn [sumZ fold_right] in Hd; [lia|].
  inversion Hl as [|? ? Hx Hl']; subst. cbn [locatePhase].
  destruct (Z.ltb_spec d (c + x)) as [Hlt|Hge].
  - exists i, (d - c). rewrite Nat.sub_diag. cbn [nth List.length].
    repeat split; lia.
  - destruct (IH (S i) (c + x) d Hl') as (j & w & Hf & Hj & Hw).
    { unfold sumZ. lia. }
    exists j, w. split; [exact Hf|]. cbn [List.length]. split; [lia|].
    replace (j - i)%nat with (S (j - S i)) by lia. exact Hw.
Qed.

Lemma daysIntoCycle_range since cycleLength adjust :
  0 < cycleLength -> 0 <= daysIntoCycle since cycleLength adjust < cycleLength.
Proof.
  intros H. unfold daysIntoCycle, wrap.
  rewrite (RemFacts.rem_wrap _ cycleLength H).
  apply Z.mod_pos_bound, H.
Qed.

(** With a positive cycle length and a finite day difference the walk of
    [getMoonPhase] breaks at a phase of the moon: the defaults
    [phaseArrayIndex = 0], [dayWithinPhase = 0] are never what is returned
    for want of a hit. *)
Lemma moonPhaseOf_locates moon cycleLength since :
  Moon.cycleLength moon = Finite cycleLength -> 0 < cycleLength ->
  Moon.phases moon <> [] ->
  let phaseDays :=
    buildPhaseDayDistribution cycleLength (Z.of_nat (List.length (Moon.phases moon))) in
  exists r i w phase,
    moonPhaseOf moon (Finite since) = Some r
    /\ locatePhase phaseDays 0 0 (MoonPhaseResult.dayInCycle r) = Some (i, w)
    /\ nth_error (Moon.phases moon) i = Some phase
    /\ MoonPhaseResult.name r = Phase.name phase
    /\ MoonPhaseResult.phaseIndex r = Some i
    /\ MoonPhaseResult.dayWithinPhase r = Some w
    /\ MoonPhaseResult.phaseDuration r = Some (nth i phaseDays 0)
    /\ 0 <= w < nth i phaseDays 0.
Proof.
  destruct moon as [moonName cl cycleDayAdjust phases referenceDate].
  cbn [Moon.cycleLength Moon.phases]. intros -> Hpos Hne.
  destruct phases as [|p0 ps]; [congruence|].
  set (phaseDays := buildPhaseDayDistribution cycleLength (Z.of_nat (List.length (p0 :: ps)))).
  set (adjust := match cycleDayAdjust with Finite a => a | NotFinite => 0 end).
  pose proof (daysIntoCycle_range since cycleLength adjust Hpos) as Hrange.
  assert (Hn : 1 <= Z.of_nat (List.length (p0 :: ps))) by (cbn [List.length]; lia).
  destruct (distribution_shape cycleLength _ ltac:(lia) Hn) as (Hlen & Hnn & Hsum).
  fold phaseDays in Hlen, Hnn, Hsum.
  destruct (locatePhase_finds phaseDays 0 0 (daysIntoCycle since cycleLength adjust) Hnn)
    as (i & w & Hf & Hi & Hw); [lia|].
  rewrite Nat.sub_0_r in Hw.
  destruct (nth_error (p0 :: ps) i) as [phase|] eqn:Ep.
  2:{ apply nth_error_None in Ep. lia. }
  unfold moonPhaseOf. cbn [Moon.cycleLength Moon.phases Moon.cycleDayAdjust].
  destruct (Z.leb_spec cycleLength 0) as [|_]; [lia|].
  fold adjust. cbv zeta. fold phaseDays. rewrite Hf, Ep.
  cbn [nullish_phase].
  eexists _, i, w, phase. split; [reflexivity|].
  cbn [MoonPhaseResult.dayInCycle MoonPhaseResult.name MoonPhaseResult.phaseIndex
       MoonPhaseResult.dayWithinPhase MoonPhaseResult.phaseDuration].
  repeat split; try reflexivity; try assumption; lia.
Qed.

(** C10: for a cycle length that is not negative and at least one phase,
    the distribution has [numPhases] entries, none negative, summing to
    the cycle length; hence the cumulative walk of [getMoonPhase] finds a
    phase for every day index in [0, cycleLength), the day index
    [getMoonPhase] computes is such a one, and [getMoonPhase] itself returns
    the phase the walk stopped at. *)
Theorem distribution_invariant (cycleLength numPhases : Z) :
  0 <= cycleLength -> 1 <= numPhases ->
  let phaseDays := buildPhaseDayDistribution cycleLength numPhases in
  Z.of_nat (List.length phaseDays) = numPhases
  /\ Forall (fun d => 0 <= d) phaseDays
  /\ sumZ phaseDays = cycleLength
  /\ (forall dayIndex, 0 <= dayIndex < cycleLength ->
      exists (i : nat) (dayWithinPhase : Z),
        locatePhase phaseDays 0 0 dayIndex = Some (i, dayWithinPhase)
        /\ (i < List.length phaseDays)%nat
        /\ 0 <= dayWithinPhase < nth i phaseDays 0)
  /\ (forall daysSinceReference cycleDayAdjust, 0 < cycleLength ->
      0 <= daysIntoCycle daysSinceReference cycleLength cycleDayAdjust < cycleLength)
  /\ (forall moon daysSinceReference,
        Moon.cycleLength moon = Finite cycleLength -> 0 < cycleLength ->
        Moon.phases moon <> [] ->
        numPhases = Z.of_nat (List.length (Moon.phases moon)) ->
        exists r i dayWithinPhase,
          moonPhaseOf moon (Finite daysSinceReference) = Some r
          /\ locatePhase phaseDays 0 0 (MoonPhaseResult.dayInCycle r)
             = Some (i, dayWithinPhase)
          /\ MoonPhaseResult.phaseIndex r = Some i
          /\ MoonPhaseResult.dayWithinPhase r = Some dayWithinPhase
          /\ (i < List.length (Moon.phases moon))%nat).
Proof.
  intros HL Hn phaseDays.
  destruct (distribution_shape cycleLength numPhases HL Hn) as (Hlen & Hpos & Hsum).
  fold phaseDays in Hlen, Hpos, Hsum.
  split; [exact Hlen|]. split; [exact Hpos|]. split; [exact Hsum|]. split.
  - intros dayIndex Hd.
    destruct (locatePhase_finds phaseDays 0 0 dayIndex Hpos) as (i & w & Hf & Hi & Hw);
      [lia|].
    exists i, w. rewrite Nat.sub_0_r in Hw. repeat split; try assumption; lia.
  - split; [intros since adjust Hc; apply daysIntoCycle_range, Hc|].
    intros moon since Hcl Hc Hne Hnum. subst phaseDays. rewrite Hnum.
    destruct (moonPhaseOf_locates moon cycleLength since Hcl Hc Hne)
      as (r & i & w & phase & Hr & Hloc & Hnth & _ & Hi & Hw & _).
    exists r, i, w. repeat split; try assumption.
    apply nth_error_Some. congruence.
Qed.

Lemma distribution_invariant_witness :
  0 <= 29 /\ 1 <= 8
  /\ Z.of_nat (List.length (buildPhaseDayDistribution 29 8)) = 8
  /\ sumZ (buildPhaseDayDistribution 29 8) = 29.
Proof.
  assert (H0 : 0 <= 29) by lia. assert (H1 : 1 <= 8) by lia.
  pose proof (distribution_invariant 29 8 H0 H1) as H. cbv zeta in H.
  split; [exact H0|]. split; [exact H1|].
  split; [exact (proj1 H) | exact (proj1 (proj2 (proj2 H)))].
Defined.

Section Degenerate.

Import CalendariaCalendar.

Variable componentsToTime : Calendar.t -> Z -> Z -> Z -> Z -> Z -> Num.

(** The guard of [getMoonPhase] catches every non-finite or non-positive
    input. *)
Lemma moonPhaseOf_guard moon since :
  since = NotFinite \/ Moon.cycleLength moon = NotFinite
  \/ (exists L, Moon.cycleLength moon = Finite L /\ L <= 0) ->
  moonPhaseOf moon since = firstPhaseFallback moon.
Proof.
  unfold moonPhaseOf, firstPhaseFallback.
  intros [->|[->|(L & -> & HL)]].
  - reflexivity.
  - destruct since; reflexivity.
  - destruct since; [|reflexivity].
    destruct (Z.leb_spec L 0); [reflexivity | lia].
Qed.

Lemma moonPhaseOf_no_phases moon since :
  Moon.phases moon = [] -> moonPhaseOf moon since = None.
Proof.
  unfold moonPhaseOf, firstPhaseFallback. intros ->.
  destruct since as [d|], (Moon.cycleLength moon) as [L|]; try reflexivity.
  destruct (L <=? 0); [reflexivity|].
  destruct (locatePhase _ _ _ _) as [[i w]|]; [destruct i|]; reflexivity.
Qed.

(** C7 (as amended): when the cycle length is not positive or not
    finite, or the day difference is not finite, [getMoonPhase] returns
    the first phase of the moon with position 0 and day 0 in the cycle,
    provided the moon has a phase; for a moon without phases it returns
    null. Neither case throws or yields [NaN]. *)
Theorem getMoonPhase_degenerate
    (this : Calendar.t) (moonIndex : nat) (time : TimeComponents.t)
    (moons : list Moon.t) (moon : Moon.t) (values : list Month.t) :
  Calendar.moons this = Some moons ->
  nth_error moons moonIndex = Some moon ->
  Calendar.months this = Some values ->
  let daysSinceReference :=
    numSub (_componentsToDays componentsToTime this (Some (TimeComponents.asDateLike time)))
           (_componentsToDays componentsToTime this (Some (Moon.referenceDate moon))) in
  (daysSinceReference = NotFinite \/ Moon.cycleLength moon = NotFinite
   \/ (exists L, Moon.cycleLength moon = Finite L /\ L <= 0) ->
   forall p0 rest, Moon.phases moon = p0 :: rest ->
   exists r, getMoonPhase componentsToTime this moonIndex time = Some r
             /\ MoonPhaseResult.name r = Phase.name p0
             /\ MoonPhaseResult.subPhaseName r = Raw (Phase.name p0)
             /\ MoonPhaseResult.position r = 0%Q
             /\ MoonPhaseResult.dayInCycle r = 0)
  /\ (Moon.phases moon = [] ->
      getMoonPhase componentsToTime this moonIndex time = None).
Proof.
  intros Hm Hi Hv since. unfold getMoonPhase. rewrite Hm, Hi, Hv. fold since. split.
  - intros Hdeg p0 rest Hp. rewrite (moonPhaseOf_guard _ _ Hdeg).
    unfold firstPhaseFallback. rewrite Hp.
    eexists. split; [reflexivity|]. repeat split.
  - apply moonPhaseOf_no_phases.
Qed.

End Degenerate.

(** A moon whose cycle length is 0 shows its first phase. *)
Lemma getMoonPhase_degenerate_witness :
  exists r,
    CalendariaCalendar.getMoonPhase Fixtures.hostClock
      (Fixtures.moonCalendar Fixtures.stillMoon) 0 (Fixtures.noon 5 3 7) = Some r
    /\ MoonPhaseResult.name r = Phase.name Fixtures.newMoon
    /\ MoonPhaseResult.subPhaseName r = Raw (Phase.name Fixtures.newMoon)
    /\ MoonPhaseResult.position r = 0%Q
    /\ MoonPhaseResult.dayInCycle r = 0.
Proof.
  refine (proj1 (getMoonPhase_degenerate Fixtures.hostClock
                   (Fixtures.moonCalendar Fixtures.stillMoon) 0 (Fixtures.noon 5 3 7)
                   [Fixtures.stillMoon] Fixtures.stillMoon Fixtures.twelveMonths
                   eq_refl eq_refl eq_refl) _ Fixtures.newMoon [Fixtures.fullMoon] eq_refl).
  right. right. exists 0. split; [reflexivity | lia].
Defined.

(** C7, the claim as written fails for a moon without phases: there is
    no first phase to return and [getMoonPhase] returns null. *)
Lemma getMoonPhase_no_phases_counterexample :
  Moon.phases Fixtures.barrenMoon = []
  /\ CalendariaCalendar.getMoonPhase Fixtures.hostClock
       (Fixtures.moonCalendar Fixtures.barrenMoon) 0 (Fixtures.noon 5 3 7) = None
  /\ ~ (exists r,
          CalendariaCalendar.getMoonPhase Fixtures.hostClock
            (Fixtures.moonCalendar Fixtures.barrenMoon) 0 (Fixtures.noon 5 3 7) = Some r
          /\ MoonPhaseResult.position r = 0%Q
          /\ MoonPhaseResult.dayInCycle r = 0).
Proof.
  split; [reflexivity|].
  assert (H : CalendariaCalendar.getMoonPhase Fixtures.hostClock
                (Fixtures.moonCalendar Fixtures.barrenMoon) 0 (Fixtures.noon 5 3 7) = None)
    by (vm_compute; reflexivity).
  split; [exact H|]. intros (r & Hr & _). rewrite H in Hr. discriminate.
Qed.

End MoonFacts.

(** ** Eras *)

Module EraFacts.

Import Store CalendariaCalendar.
#[local] Open Scope list_scope.
#[local] Open Scope Z_scope.

Lemma insert_perm x l : Permutation (insert byStartYearDesc x l) (x :: l).
Proof.
  induction l as [|y l IH]; cbn [insert]; [apply Permutation_refl|].
  destruct (byStartYearDesc x y >? 0); [|apply Permutation_refl].
  apply Permutation_trans with (y :: x :: l); [|apply perm_swap].
  apply perm_skip, IH.
Qed.

Lemma sorted_perm l : Permutation (sorted byStartYearDesc l) l.
Proof.
  induction l as [|x l IH]; cbn [sorted fold_right]; [apply perm_nil|].
  apply Permutation_trans with (x :: sorted byStartYearDesc l).
  - apply insert_perm.
  - apply perm_skip, IH.
Qed.

Lemma insert_descending x l :
  StronglySorted laterFirst l -> StronglySorted laterFirst (insert byStartYearDesc x l).
Proof.
  induction 1 as [|y l Hs IH Hy]; cbn [insert].
  - repeat constructor.
  - unfold byStartYearDesc at 1. destruct (Z.gtb_spec (Era.startYear y - Era.startYear x) 0) as [Hgt|Hle].
    + constructor; [exact IH|].
      apply Forall_forall. intros z Hz.
      apply (Permutation_in _ (insert_perm x l)) in Hz. destruct Hz as [<-|Hz].
      * unfold laterFirst. lia.
      * rewrite Forall_forall in Hy. apply Hy, Hz.
    + constructor; [constructor; assumption|].
      constructor; [unfold laterFirst; lia|].
      apply Forall_forall. intros z Hz. rewrite Forall_forall in Hy.
      specialize (Hy z Hz). unfold laterFirst in *. lia.
Qed.

Lemma sorted_descending l : StronglySorted laterFirst (sorted byStartYearDesc l).
Proof.
  induction l as [|x l IH]; cbn [sorted fold_right]; [constructor|].
  apply insert_descending, IH.
Qed.

(** What the first hit of a search in a descending list is. *)
Lemma find_first_descending (f : Era.t -> bool) l : forall best,
  StronglySorted laterFirst l -> find f l = Some best ->
  forall e, In e l -> f e = true -> Era.startYear e <= Era.startYear best.
Proof.
  induction l as [|x l IH]; intros best Hs Hf e He Hfe; [contradiction|].
  inversion Hs as [|? ? Hs' Hx]; subst. cbn [find] in Hf.
  destruct (f x) eqn:Efx.
  - injection Hf as <-. destruct He as [<-|He]; [lia|].
    rewrite Forall_forall in Hx. apply (Hx e He).
  - destruct He as [<-|He]; [congruence|]. exact (IH best Hs' Hf e He Hfe).
Qed.

Lemma get_app_old r (h : Store.t) v : (r < List.length h)%nat -> get r (h ++ [v]) = get r h.
Proof. intros H. unfold get. apply app_nth1, H. Qed.

Lemma get_app_new (h : Store.t) v : get (List.length h) (h ++ [v]) = v.
Proof. unfold get. rewrite app_nth2, Nat.sub_diag by lia. reflexivity. Qed.

Lemma set_app_new (h : Store.t) v w : set (List.length h) w (h ++ [v]) = h ++ [w].
Proof. induction h as [|a h IH]; cbn [List.length app set]; [reflexivity|]. rewrite IH. reflexivity. Qed.

(** A stored array that is not empty sits at a valid reference. *)
Lemma get_nonempty_valid r (h : Store.t) : get r h <> [] -> (r < List.length h)%nat.
Proof.
  intros H. destruct (Nat.lt_ge_cases r (List.length h)) as [|Hge]; [assumption|].
  exfalso. apply H. unfold get. apply nth_overflow, Hge.
Qed.

(** One run of [getCurrentEra]: the answer, and the store it leaves, which
    is the old store followed by the sorted copy. *)
Lemma getCurrentEra_run this time (h : Store.t) r :
  Calendar.eras this = Some r -> get r h <> [] ->
  let eras := get r h in
  let displayYear := TimeComponents.year time + orZ (Calendar.yearZero this) 0 in
  getCurrentEra this time h
  = (Some match find (eraCovers displayYear) (sorted byStartYearDesc eras) with
          | Some era => Some (eraResult era (displayYear - Era.startYear era + 1))
          | None => match eras with
                    | era :: _ => Some (eraResult era displayYear)
                    | [] => None
                    end
          end,
     h ++ [sorted byStartYearDesc eras]).
Proof.
  intros He Hne eras displayYear.
  pose proof (get_nonempty_valid r h Hne) as Hr.
  unfold getCurrentEra. rewrite He.
  unfold bind, read, spread, sort, ret. subst eras.
  destruct (get r h) as [|e0 rest] eqn:E; [congruence|].
  cbn [List.length Nat.eqb].
  rewrite get_app_new, set_app_new, get_app_new, E. fold displayYear.
  destruct (find (eraCovers displayYear) (sorted byStartYearDesc (e0 :: rest))) as [era|].
  - reflexivity.
  - rewrite get_app_old by exact Hr. rewrite E. reflexivity.
Qed.

(** C8: [getCurrentEra] goes through the eras in descending order of start
    year, on a copy (every array of the store is left as it was), and
    returns the first era that covers the display year, which is the
    covering era with the latest start year, with
    [yearInEra = displayYear - startYear + 1]; for the eras starting 1000
    and 1500, both open-ended, the year 1600 falls in the era starting 1500
    with [yearInEra = 101]. *)
Theorem getCurrentEra_most_recent
    (this : Calendar.t) (time : TimeComponents.t) (h : Store.t) (r : Store.ref) (era : Era.t) :
  Calendar.eras this = Some r ->
  let eras := get r h in
  let displayYear := TimeComponents.year time + orZ (Calendar.yearZero this) 0 in
  In era eras -> eraCovers displayYear era = true ->
  (exists best,
     find (eraCovers displayYear) (sorted byStartYearDesc eras) = Some best
     /\ In best eras
     /\ eraCovers displayYear best = true
     /\ (forall e, In e eras -> eraCovers displayYear e = true ->
         Era.startYear e <= Era.startYear best)
     /\ fst (getCurrentEra this time h)
        = Some (Some (eraResult best (displayYear - Era.startYear best + 1))))
  /\ StronglySorted laterFirst (sorted byStartYearDesc eras)
  /\ Permutation (sorted byStartYearDesc eras) eras
  /\ (forall r', (r' < List.length h)%nat -> get r' (snd (getCurrentEra this time h)) = get r' h)
  /\ fst (getCurrentEra Fixtures.eraCalendar (Fixtures.noon 1600 0 0) Fixtures.eraStore)
     = Some (Some (EraMatch.mk "Second Age" "SA" "suffix" None 101)).
Proof.
  intros He eras displayYear Hin Hcov.
  assert (Hne : get r h <> []) by (intros E; fold eras in E; rewrite E in Hin; contradiction).
  pose proof (getCurrentEra_run this time h r He Hne) as Hrun. cbv zeta in Hrun.
  fold eras displayYear in Hrun.
  pose proof (sorted_perm eras) as Hperm.
  pose proof (sorted_descending eras) as Hdesc.
  destruct (find (eraCovers displayYear) (sorted byStartYearDesc eras)) as [best|] eqn:Ef.
  - destruct (find_some _ _ Ef) as [Hb Hbc].
    split; [|split; [exact Hdesc|split; [exact Hperm|split]]].
    + exists best. split; [reflexivity|].
      split; [exact (Permutation_in _ Hperm Hb)|]. split; [exact Hbc|]. split.
      * intros e Hein Hec.
        apply (find_first_descending _ _ best Hdesc Ef e); [|exact Hec].
        exact (Permutation_in _ (Permutation_sym Hperm) Hein).
      * rewrite Hrun. reflexivity.
    + intros r' Hr'. rewrite Hrun. cbn [snd]. apply get_app_old, Hr'.
    + vm_compute. reflexivity.
  - exfalso.
    pose proof (find_none _ _ Ef era (Permutation_in _ (Permutation_sym Hperm) Hin)) as Hn.
    congruence.
Qed.

(** The spec's example: year 1600 with the eras starting 1000 and 1500. *)
Lemma getCurrentEra_most_recent_witness :
  exists best,
    In best [Fixtures.firstAge; Fixtures.secondAge]
    /\ Era.startYear best = 1500
    /\ fst (getCurrentEra Fixtures.eraCalendar (Fixtures.noon 1600 0 0) Fixtures.eraStore)
       = Some (Some (eraResult best (1600 - Era.startYear best + 1))).
Proof.
  destruct (proj1 (getCurrentEra_most_recent Fixtures.eraCalendar (Fixtures.noon 1600 0 0)
                     Fixtures.eraStore 0%nat Fixtures.firstAge eq_refl
                     (or_introl eq_refl) eq_refl))
    as (best & Hfind & Hin & _ & _ & Hres).
  exists best. split; [exact Hin|]. split; [|exact Hres].
  vm_compute in Hfind. injection Hfind as <-. reflexivity.
Defined.

(** C9: when no era covers the display year and the list is not empty,
    [getCurrentEra] returns the first era as the list was defined (the
    sort worked on a copy), with [yearInEra] the display year itself. *)
Theorem getCurrentEra_fallback
    (this : Calendar.t) (time : TimeComponents.t) (h : Store.t) (r : Store.ref)
    (first : Era.t) (rest : list Era.t) :
  Calendar.eras this = Some r ->
  get r h = first :: rest ->
  let displayYear := TimeComponents.year time + orZ (Calendar.yearZero this) 0 in
  (forall e, In e (first :: rest) -> eraCovers displayYear e = false) ->
  exists m,
    fst (getCurrentEra this time h) = Some (Some m)
    /\ m = eraResult first displayYear
    /\ EraMatch.name m = Era.name first
    /\ EraMatch.abbreviation m = Era.abbreviation first
    /\ EraMatch.yearInEra m = displayYear.
Proof.
  intros He Hg displayYear Hnone.
  assert (Hne : get r h <> []) by (rewrite Hg; discriminate).
  pose proof (getCurrentEra_run this time h r He Hne) as Hrun. cbv zeta in Hrun.
  fold displayYear in Hrun. rewrite Hg in Hrun.
  destruct (find (eraCovers displayYear) (sorted byStartYearDesc (first :: rest)))
    as [hit|] eqn:Ef.
  - destruct (find_some _ _ Ef) as [Hin Hc].
    apply (Permutation_in _ (sorted_perm (first :: rest))) in Hin.
    rewrite (Hnone hit Hin) in Hc. discriminate.
  - exists (eraResult first displayYear). rewrite Hrun. repeat split.
Qed.

(** Year 600 lies before both eras: the first defined era answers. *)
Lemma getCurrentEra_fallback_witness :
  exists m,
    fst (getCurrentEra Fixtures.eraCalendar (Fixtures.noon 600 0 0) Fixtures.eraStore)
    = Some (Some m)
    /\ EraMatch.name m = Era.name Fixtures.firstAge
    /\ EraMatch.yearInEra m = 600.
Proof.
  assert (Hnone : forall e, In e [Fixtures.firstAge; Fixtures.secondAge] ->
                            eraCovers (600 + 0) e = false).
  { intros e [<-|[<-|[]]]; reflexivity. }
  destruct (getCurrentEra_fallback Fixtures.eraCalendar (Fixtures.noon 600 0 0)
              Fixtures.eraStore 0%nat Fixtures.firstAge [Fixtures.secondAge]
              eq_refl eq_refl Hnone) as (m & Hm & _ & Hname & _ & Hyear).
  exists m. repeat split; assumption.
Defined.

End EraFacts.

(** ** Cycles *)

Module CycleFacts.

Import Store CalendariaCalendar.
#[local] Open Scope string_scope.
#[local] Open Scope list_scope.
#[local] Open Scope Z_scope.

(** [getCurrentEra] always returns. *)
Lemma getCurrentEra_returns this time (h : Store.t) :
  exists res h', getCurrentEra this time h = (Some res, h').
Proof.
  destruct (Calendar.eras this) as [r|] eqn:He.
  - destruct (get r h) as [|e0 rest] eqn:Eg.
    + unfold getCurrentEra. rewrite He. unfold bind, read. rewrite Eg.
      eexists _, _. reflexivity.
    + assert (Hne : get r h <> []) by (rewrite Eg; discriminate).
      rewrite (EraFacts.getCurrentEra_run this time h r He Hne).
      eexists _, _. reflexivity.
  - unfold getCurrentEra. rewrite He. eexists _, _. reflexivity.
Qed.

(** The upward correction and the double remainder leave the index that
    plain modular arithmetic gives. *)
Lemma cycleIndexOf_mod epochValue length offset n :
  0 < n ->
  cycleIndexOf epochValue length offset n = (epochValue / length + offset / length) mod n
  /\ 0 <= cycleIndexOf epochValue length offset n < n.
Proof.
  intros Hn. unfold cycleIndexOf.
  rewrite (RemFacts.rem_wrap _ n Hn), (RemFacts.rem_mod_same _ n Hn).
  split; [|apply Z.mod_pos_bound, Hn].
  destruct (epochValue / length <? 0); [|reflexivity].
  replace (epochValue / length + ceilDiv (Z.abs epochValue) n * n + offset / length)
    with (epochValue / length + offset / length + ceilDiv (Z.abs epochValue) n * n) by lia.
  apply Z_mod_plus_full.
Qed.

Section Values.

Variable componentsToTime : Calendar.t -> Z -> Z -> Z -> Z -> Z -> Num.

(** With months loaded, the epoch values are produced and hold the month. *)
Lemma epochValues_returns this time displayYear values (h : Store.t) :
  Calendar.months this = Some values ->
  exists ev h',
    _getCycleEpochValues componentsToTime this time displayYear h = (Some ev, h')
    /\ ev_month ev = TimeComponents.month time.
Proof.
  intros Hm. unfold _getCycleEpochValues, dayOfYearUnguarded. rewrite Hm.
  unfold bind at 1.
  destruct (getCurrentEra_returns this
              (TimeComponents.mk (TimeComponents.year time) (TimeComponents.month time)
                 (TimeComponents.dayOfMonth time) 0 0 0) h) as (res & h' & Hera).
  destruct (TimeComponents.month time <=? 0); unfold ret at 1; unfold bind;
    rewrite Hera; eexists _, _; (split; [reflexivity|reflexivity]).
Qed.

Lemma getCycleValues_single this time values cycle (h : Store.t) :
  Calendar.months this = Some values ->
  Calendar.cycles this = Some [cycle] ->
  Cycle.entries cycle <> [] ->
  exists ev,
    ev_month ev = TimeComponents.month time
    /\ fst (getCycleValues componentsToTime this time h) = Some [cycleValueOf ev cycle].
Proof.
  intros Hm Hc Hne. unfold getCycleValues. rewrite Hc.
  destruct (epochValues_returns this time
              (TimeComponents.year time + orZ (Calendar.yearZero this) 0) values h Hm)
    as (ev & h' & Hev & Hmonth).
  exists ev. split; [exact Hmonth|].
  unfold bind. rewrite Hev. cbn [filter map].
  destruct (Cycle.entries cycle) as [|e0 rest] eqn:E; [congruence|]. reflexivity.
Qed.

(** C1 (as amended): the index [getCycleValues] resolves for a cycle is
    [cycleNum = floor(epochValue / length)], raised by
    [ceil(|epochValue| / entries.length) * entries.length] when negative,
    then [(cycleNum + floor(offset / length))] reduced by [%] and by the
    double remainder, which is [(floor(epochValue / length) +
    floor(offset / length)) mod entries.length], in [0, entries.length).
    For a cycle based on the month with length 12, offset 0 and 12
    entries the index is therefore 0 in every month 0..11 (every entry
    lasts 12 months), not the month. *)
Theorem getCycleValues_index
    (this : Calendar.t) (time : TimeComponents.t) (h : Store.t)
    (values : list Month.t) (cycle : Cycle.t) :
  Calendar.months this = Some values ->
  Calendar.cycles this = Some [cycle] ->
  Cycle.entries cycle <> [] ->
  Cycle.length cycle <> 0 ->
  let n := Z.of_nat (List.length (Cycle.entries cycle)) in
  let length := Cycle.length cycle in
  let offset := Cycle.offset cycle in
  exists ev,
    ev_month ev = TimeComponents.month time
    /\ fst (getCycleValues componentsToTime this time h) = Some [cycleValueOf ev cycle]
    /\ (forall epochValue, epochValueOf ev (Cycle.basedOn cycle) = Finite epochValue ->
        let cycleNum := epochValue / length in
        let raised :=
          if cycleNum <? 0 then cycleNum + ceilDiv (Z.abs epochValue) n * n else cycleNum in
        let cycleIndex := Z.rem (raised + offset / length) n in
        CycleValue.index (cycleValueOf ev cycle) = Finite (Z.rem (Z.rem cycleIndex n + n) n)
        /\ Z.rem (Z.rem cycleIndex n + n) n = (cycleNum + offset / length) mod n
        /\ 0 <= Z.rem (Z.rem cycleIndex n + n) n < n)
    /\ (Cycle.basedOn cycle = "month" -> length = 12 -> offset = 0 -> n = 12 ->
        0 <= TimeComponents.month time <= 11 ->
        CycleValue.index (cycleValueOf ev cycle) = Finite 0).
Proof.
  intros Hm Hc Hne Hlen n length offset.
  destruct (getCycleValues_single this time values cycle h Hm Hc Hne) as (ev & Hmonth & Hres).
  assert (Hn : 0 < n).
  { subst n. destruct (Cycle.entries cycle); [congruence | cbn [List.length]; lia]. }
  assert (Hidx : forall epochValue,
             epochValueOf ev (Cycle.basedOn cycle) = Finite epochValue ->
             CycleValue.index (cycleValueOf ev cycle)
             = Finite (cycleIndexOf epochValue length offset n)).
  { intros e He. unfold cycleValueOf. rewrite He. fold length.
    destruct (Z.eqb_spec length 0) as [Hz|_]; [contradiction|]. reflexivity. }
  exists ev. split; [exact Hmonth|]. split; [exact Hres|]. split.
  - intros e He. cbv zeta. rewrite (Hidx e He).
    split; [reflexivity|]. exact (cycleIndexOf_mod e length offset n Hn).
  - intros Hb Hl Ho Hn12 Hrange.
    assert (He : epochValueOf ev (Cycle.basedOn cycle) = Finite (TimeComponents.month time)).
    { rewrite Hb, <- Hmonth. reflexivity. }
    rewrite (Hidx _ He). f_equal.
    rewrite (proj1 (cycleIndexOf_mod _ length offset n Hn)), Hl, Ho, Hn12.
    rewrite (Z.div_small (TimeComponents.month time) 12) by lia. reflexivity.
Qed.

End Values.

(** The zodiac calendar in month 5 (the sixth month). *)
Lemma getCycleValues_index_witness :
  exists ev,
    fst (getCycleValues Fixtures.hostClock Fixtures.zodiacCalendar (Fixtures.noon 1600 5 0) [])
    = Some [cycleValueOf ev Fixtures.zodiac]
    /\ CycleValue.index (cycleValueOf ev Fixtures.zodiac) = Finite 0.
Proof.
  assert (Hne : Cycle.entries Fixtures.zodiac <> []) by discriminate.
  assert (Hlen : Cycle.length Fixtures.zodiac <> 0) by discriminate.
  destruct (getCycleValues_index Fixtures.hostClock Fixtures.zodiacCalendar
              (Fixtures.noon 1600 5 0) [] Fixtures.twelveMonths Fixtures.zodiac
              eq_refl eq_refl Hne Hlen) as (ev & _ & Hres & _ & Hmonth).
  exists ev. split; [exact Hres|].
  apply Hmonth; try reflexivity. cbn. lia.
Defined.

(** C1, the claim as written fails: in month 5 the zodiac of length 12
    stands at index 0 (its first entry), not at index 5. *)
Lemma getCycleValues_month_counterexample :
  fst (getCycleValues Fixtures.hostClock Fixtures.zodiacCalendar (Fixtures.noon 1600 5 0) [])
  = Some [CycleValue.mk "Zodiac" "Aries" (Finite 0)]
  /\ Finite 0 <> Finite (TimeComponents.month (Fixtures.noon 1600 5 0)).
Proof.
  split; [vm_compute; reflexivity | discriminate].
Qed.

End CycleFacts.

(** ** Daylight *)

Module DaylightFacts.

Import CalendariaCalendar.
#[local] Open Scope Q_scope.

Lemma Qltb_lt x y : Qltb x y = true <-> x < y.
Proof.
  unfold Qltb. rewrite negb_true_iff. split.
  - intros H. apply Qnot_le_lt. intros Hle. apply Qle_bool_iff in Hle. congruence.
  - intros H. destruct (Qle_bool y x) eqn:E; [|reflexivity].
    apply Qle_bool_iff in E. exfalso. exact (Qlt_not_le _ _ H E).
Qed.

Lemma Qltb_ge x y : Qltb x y = false <-> y <= x.
Proof.
  unfold Qltb. rewrite negb_false_iff. apply Qle_bool_iff.
Qed.

(** The arithmetic of [progressNight] when daylight lasts half the day. *)
Lemma night_progress_half (hpd d hour : Q) :
  0 < hpd -> d == hpd / 2 -> 0 <= hour -> hour < hpd ->
  let sunrise := hpd / 2 - d / 2 in
  let sunset := hpd / 2 + d / 2 in
  let daylight := sunset - sunrise in
  sunset <= hour \/ hour < sunrise ->
  let shifted := if Qltb hour daylight then hour + hpd else hour in
  (Qltb hour daylight = Qltb hour sunset)
  /\ (shifted - sunset) / daylight == (shifted - sunset) / (sunrise + hpd - sunset)
  /\ 0 <= (shifted - sunset) / daylight
  /\ (shifted - sunset) / daylight <= 1.
Proof.
  intros Hpos Hd H0 H1 sunrise sunset daylight Hnight shifted.
  assert (Hquarter : hpd / 2 == hpd * (1 # 2)) by (field).
  assert (Hsr : sunrise == hpd * (1 # 4)) by (subst sunrise; rewrite Hd; field).
  assert (Hss : sunset == hpd * (3 # 4)) by (subst sunset; rewrite Hd; field).
  assert (Hdl : daylight == hpd * (1 # 2)) by (subst daylight sunset sunrise; rewrite Hd; field).
  assert (Hnl : sunrise + hpd - sunset == daylight) by (rewrite Hsr, Hss, Hdl; ring).
  assert (Hdpos : 0 < daylight) by (rewrite Hdl; lra).
  split; [|split; [|split]].
  - destruct (Qltb hour daylight) eqn:E1, (Qltb hour sunset) eqn:E2; try reflexivity; exfalso.
    + apply Qltb_lt in E1. apply Qltb_ge in E2. rewrite Hdl in E1. rewrite Hss in E2. lra.
    + apply Qltb_ge in E1. apply Qltb_lt in E2. rewrite Hdl in E1. rewrite Hss in E2.
      destruct Hnight as [Hn|Hn]; [rewrite Hss in Hn | rewrite Hsr in Hn]; lra.
  - rewrite Hnl. reflexivity.
  - apply Qle_shift_div_l; [exact Hdpos|]. subst shifted.
    destruct (Qltb hour daylight) eqn:E1.
    + rewrite Hss. lra.
    + apply Qltb_ge in E1. rewrite Hdl in E1.
      destruct Hnight as [Hn|Hn]; [rewrite Hss in Hn | rewrite Hsr in Hn]; rewrite Hss; lra.
  - apply Qle_shift_div_r; [exact Hdpos|]. subst shifted.
    destruct (Qltb hour daylight) eqn:E1.
    + apply Qltb_lt in E1. rewrite Hdl in E1. rewrite Hss, Hdl.
      destruct Hnight as [Hn|Hn]; [rewrite Hss in Hn | rewrite Hsr in Hn]; lra.
    + rewrite Hss, Hdl. lra.
Qed.

Section Night.

Variable dynamicDaylightHours : Calendar.t -> TimeComponents.t -> Q.

Lemma daylightHours_value this time :
  daylightHours dynamicDaylightHours this time
  == _getDaylightHoursForDay dynamicDaylightHours this time.
Proof. unfold daylightHours, sunset, sunrise. cbv zeta. field. Qed.

(** In static mode daylight lasts half the day. *)
Lemma static_daylight_half this time :
  (forall dl, Calendar.daylight this = Some dl -> Daylight.enabled dl = false) ->
  daylightHours dynamicDaylightHours this time
  == inject_Z (Days.hoursPerDay (Calendar.days this)) / 2.
Proof.
  intros Hs. rewrite daylightHours_value. unfold _getDaylightHoursForDay.
  destruct (Calendar.daylight this) as [dl|]; [rewrite (Hs dl eq_refl)|]; cbn [negb]; field.
Qed.

(** C2 (as amended): in static mode, or whenever daylight lasts half the
    day, for every hour of the day in the night span (at or after sunset,
    or before sunrise) [progressNight] returns the fraction of the night
    elapsed, between 0 at sunset and 1 at the next sunrise, the hour being
    shifted up by [hoursPerDay] exactly when it lies before the sunset
    time of day. *)
Theorem progressNight_half_day (this : Calendar.t) (time : TimeComponents.t) :
  let hoursPerDay := inject_Z (Days.hoursPerDay (Calendar.days this)) in
  let hour := hoursOfDay time this in
  let sunrise := sunrise dynamicDaylightHours this time in
  let sunset := sunset dynamicDaylightHours this time in
  0 < hoursPerDay ->
  (forall dl, Calendar.daylight this = Some dl -> Daylight.enabled dl = false)
  \/ daylightHours dynamicDaylightHours this time == hoursPerDay / 2 ->
  0 <= hour -> hour < hoursPerDay ->
  sunset <= hour \/ hour < sunrise ->
  let shifted := nightHour dynamicDaylightHours this time in
  shifted = (if Qltb hour sunset then hour + hoursPerDay else hour)
  /\ progressNight dynamicDaylightHours this time
     == (shifted - sunset) / (sunrise + hoursPerDay - sunset)
  /\ 0 <= progressNight dynamicDaylightHours this time
  /\ progressNight dynamicDaylightHours this time <= 1.
Proof.
  intros hpd hour sr ss Hpos Hmode H0 H1 Hnight shifted.
  assert (Hhalf : daylightHours dynamicDaylightHours this time == hpd / 2).
  { destruct Hmode as [Hstatic|Hhalf]; [apply static_daylight_half, Hstatic | exact Hhalf]. }
  rewrite daylightHours_value in Hhalf.
  pose proof (night_progress_half hpd (_getDaylightHoursForDay dynamicDaylightHours this time)
                hour Hpos Hhalf H0 H1 Hnight) as (Hshift & Heq & Hlo & Hhi).
  split; [|split; [|split]].
  - subst shifted. unfold nightHour. fold hour hpd.
    change (daylightHours dynamicDaylightHours this time)
      with (hpd / 2 + _getDaylightHoursForDay dynamicDaylightHours this time / 2
            - (hpd / 2 - _getDaylightHoursForDay dynamicDaylightHours this time / 2)).
    rewrite Hshift. reflexivity.
  - exact Heq.
  - exact Hlo.
  - exact Hhi.
Qed.

End Night.

(** Five o'clock in the morning in static mode: eleven twelfths of the
    night are over. *)
Lemma progressNight_half_day_witness :
  progressNight Fixtures.winterSolsticeHours (Fixtures.daylightCalendar false)
    (TimeComponents.mk 1600 11 25 5 0 0) == 11 # 12
  /\ progressNight Fixtures.winterSolsticeHours (Fixtures.daylightCalendar false)
       (TimeComponents.mk 1600 11 25 5 0 0) <= 1.
Proof.
  split; [vm_compute; reflexivity|].
  refine (proj2 (proj2 (proj2
    (progressNight_half_day Fixtures.winterSolsticeHours (Fixtures.daylightCalendar false)
       (TimeComponents.mk 1600 11 25 5 0 0) _ _ _ _ _)))).
  - reflexivity.
  - left. intros dl Hdl. injection Hdl as <-. reflexivity.
  - vm_compute. discriminate.
  - reflexivity.
  - right. reflexivity.
Defined.

(** C2, the claim as written fails under dynamic daylight: on the winter
    solstice of the default configuration (8 hours of daylight, sunrise at
    8, sunset at 16) seven o'clock lies in the night, yet [progressNight]
    returns 15/8, which exceeds 1 and is not the elapsed fraction 15/16 of
    the 16-hour night. *)
Lemma progressNight_dynamic_counterexample :
  let this := Fixtures.daylightCalendar true in
  let time := Fixtures.sevenOClock in
  hoursOfDay time this == 7
  /\ sunrise Fixtures.winterSolsticeHours this time == 8
  /\ sunset Fixtures.winterSolsticeHours this time == 16
  /\ hoursOfDay time this < sunrise Fixtures.winterSolsticeHours this time
  /\ progressNight Fixtures.winterSolsticeHours this time == 15 # 8
  /\ ~ progressNight Fixtures.winterSolsticeHours this time <= 1
  /\ ~ progressNight Fixtures.winterSolsticeHours this time
        == (7 + 24 - 16) / (8 + 24 - 16).
Proof.
  cbv zeta. repeat split; try (vm_compute; reflexivity); vm_compute; congruence.
Qed.

End DaylightFacts.

(** ** Leap years: parsing, validation and legacy configurations *)

Module LeapYearMore.

Import JsString JsStringFacts LeapYearUtils LeapYearFacts LeapYearConversion.
#[local] Open Scope string_scope.
#[local] Open Scope list_scope.
#[local] Open Scope Z_scope.

(** Whatever the text handed to [parseInterval], the interval it returns
    is at least 1 and the offset lies within it. *)
Theorem parseInterval_wellFormed (intervalStr : string) (offset : Z) :
  wellFormed (parseInterval intervalStr offset).
Proof.
  unfold wellFormed, parseInterval. cbn [interval LeapYearUtils.offset].
  set (i := Z.max 1 _).
  assert (Hi : 1 <= i) by (subst i; apply Z.le_max_l).
  split; [exact Hi|].
  exact (proj2 (normalizedOffset_range i offset _ Hi)).
Qed.

Lemma split_nonempty sep s : split sep s <> [].
Proof.
  destruct s as [|c s]; cbn [split]; [discriminate|].
  destruct (Ascii.eqb c sep); [discriminate|].
  destruct (split sep s); discriminate.
Qed.

Lemma split_app sep a b :
  split sep (String.append a (String sep b)) = split sep a ++ split sep b.
Proof.
  induction a as [|c a IH]; cbn [String.append split].
  - rewrite Ascii.eqb_refl. reflexivity.
  - destruct (Ascii.eqb c sep); rewrite IH; [reflexivity|].
    destruct (split sep a) eqn:E; [exfalso; exact (split_nonempty _ _ E) | reflexivity].
Qed.

(** [parsePattern] without its guard: the empty pattern has one blank
    segment, which the filter drops. *)
Lemma parsePattern_segments p off :
  parsePattern (Some p) off
  = map (fun s => parseInterval s off)
        (filter (fun s => (0 <? String.length s)%nat) (map trim (split "," p))).
Proof. destruct p; reflexivity. Qed.

(** A pattern is parsed segment by segment: joining two patterns with a
    comma joins their interval lists, so that empty patterns and blank
    segments contribute nothing. *)
Theorem parsePattern_comma (a b : string) (offset : Z) :
  parsePattern (Some (String.append a (String "," b))) offset
  = parsePattern (Some a) offset ++ parsePattern (Some b) offset.
Proof.
  rewrite !parsePattern_segments, split_app, map_app, filter_app, map_app. reflexivity.
Qed.

Lemma voteOnYear_withoutYearZero i year :
  voteOnYear i year false = voteOnYear i (withoutYearZero year) true.
Proof.
  unfold voteOnYear, withoutYearZero. cbn [negb andb].
  destruct (year <? 0); [|reflexivity].
  replace (year + 1 - offset i) with (year - offset i + 1) by lia. reflexivity.
Qed.

Lemma intersectsYear_withoutYearZero intervals year :
  intersectsYear intervals year false = intersectsYear intervals (withoutYearZero year) true.
Proof.
  rewrite !intersectsYear_total. unfold voteSum. f_equal. f_equal.
  apply map_ext. intros i. rewrite voteOnYear_withoutYearZero. reflexivity.
Qed.

(** In a calendar without a year 0 every negative year is judged as the
    year after it would be in a calendar with one, under every rule; years
    from 0 on are judged alike. *)
Theorem isLeapYear_withoutYearZero (config : option LeapYearConfig) (year : Z) :
  isLeapYear config year false = isLeapYear config (withoutYearZero year) true.
Proof.
  unfold isLeapYear. destruct config as [cfg|]; [|reflexivity].
  cbv zeta.
  repeat match goal with
         | |- context [if ?b then _ else _] => destruct b; try reflexivity
         | |- context [match ?x with _ => _ end] => destruct x; try reflexivity
         end; apply intersectsYear_withoutYearZero.
Qed.

(** [parseInterval] on the decimal text of an integer. *)
Lemma parseInterval_toString n off :
  parseInterval (toString n) off
  = mkInterval (Z.max 1 n) false (normalizedOffset (Z.max 1 n) off false).
Proof.
  destruct (toString_digits n) as (ds & Hne & Hds & Hv & ->).
  pose proof (parseInterval_digits ds Hds NoPrefix (n <? 0) off Hne) as H.
  unfold specDigits in H. cbn [prefixString String.append] in H.
  rewrite H. cbv zeta. rewrite Hv. cbn [isBang isPlus].
  assert ((if n <? 0 then - Z.abs n else Z.abs n) = n) as ->; [|reflexivity].
  destruct (n <? 0) eqn:E; [apply Z.ltb_lt in E | apply Z.ltb_ge in E]; lia.
Qed.

Lemma isLeapYear_simple n s year yz :
  1 <= n ->
  isLeapYear (simple n s) year yz
  = intersectsYear [parseInterval (toString n) s] year yz.
Proof.
  intros Hn. unfold isLeapYear, simple.
  cbn [rule start leapStart cfg_interval leapInterval nullish].
  change (String.eqb "simple" "none") with false.
  change (String.eqb "simple" "simple") with true. cbv iota.
  destruct (Z.leb_spec n 0); [lia | reflexivity].
Qed.

(** The test [voteOnYear] applies, against the offset [parseInterval]
    normalised, is divisibility of the distance from the start year. *)
Lemma rem_offset_mod n s year :
  1 <= n ->
  (Z.rem (year - normalizedOffset n s false) n =? 0) = ((year - s) mod n =? 0).
Proof.
  intros Hn. rewrite rem_zero_mod by lia.
  destruct (normalizedOffset_range n s false Hn) as [-> _].
  destruct (Z.eqb_spec n 1) as [->|Hne]; cbn [orb].
  - rewrite !Z.mod_1_r. reflexivity.
  - rewrite Zminus_mod_idemp_r. reflexivity.
Qed.

(** The vote of the single interval of the simple rule. *)
Lemma simple_leap_vote n s year :
  1 <= n ->
  isLeapYear (simple n s) year true
  = (Z.rem (year - normalizedOffset n s false) n =? 0).
Proof.
  intros Hn. rewrite (isLeapYear_simple n s year true Hn), parseInterval_toString.
  rewrite (Z.max_r 1 n) by lia.
  rewrite intersectsYear_total.
  unfold voteSum, voteOnYear. cbn [map fold_right interval subtracts offset negb andb].
  destruct (Z.eqb_spec n 0) as [|_]; [lia|]. cbn [negb andb].
  destruct (Z.rem _ n =? 0); reflexivity.
Qed.

(** The simple rule: with interval [n >= 1] and first leap year [s], the
    leap years are exactly the years that differ from [s] by a multiple of
    [n] (with [n = 1], every year). *)
Theorem isLeapYear_simple_rule (n s year : Z) :
  1 <= n ->
  isLeapYear (simple n s) year true = true <-> (year - s) mod n = 0.
Proof.
  intros Hn.
  rewrite (simple_leap_vote n s year Hn), (rem_offset_mod n s year Hn).
  apply Z.eqb_eq.
Qed.

Lemma isLeapYear_simple_rule_witness :
  1 <= 4 /\ (isLeapYear (simple 4 2) 10 true = true <-> (10 - 2) mod 4 = 0).
Proof.
  split; [lia|]. apply isLeapYear_simple_rule. lia.
Defined.

(** The gregorian pattern read against a start offset. *)
Lemma gregorian_intervals s :
  parsePattern (Some "400,!100,4") s
  = [mkInterval 400 false (normalizedOffset 400 s false);
     mkInterval 100 true (normalizedOffset 100 s false);
     mkInterval 4 false (normalizedOffset 4 s false)].
Proof. reflexivity. Qed.

(** The three votes of the gregorian rule. *)
Lemma gregorian_leap_votes s year :
  isLeapYear (gregorian s) year true
  = ((if (year - s) mod 400 =? 0 then 1 else 0)
     + ((if (year - s) mod 100 =? 0 then -1 else 0)
        + (if (year - s) mod 4 =? 0 then 1 else 0)) >? 0).
Proof.
  change (isLeapYear (gregorian s) year true)
    with (intersectsYear (parsePattern (Some "400,!100,4") s) year true).
  rewrite gregorian_intervals, intersectsYear_total.
  unfold voteSum, voteOnYear. cbn [map fold_right interval subtracts offset negb andb].
  change (400 =? 0) with false. change (100 =? 0) with false. change (4 =? 0) with false.
  cbn [negb andb].
  rewrite !rem_offset_mod by lia.
  destruct ((year - s) mod 400 =? 0), ((year - s) mod 100 =? 0), ((year - s) mod 4 =? 0);
    reflexivity.
Qed.

(** The gregorian rule counted from a start year [s]: a year is leap
    exactly when its distance from [s] is a multiple of 400, or a multiple
    of 4 that is not a multiple of 100. *)
Theorem isLeapYear_gregorian_rule (s year : Z) :
  isLeapYear (gregorian s) year true = true
  <-> ((year - s) mod 400 = 0
       \/ ((year - s) mod 4 = 0 /\ (year - s) mod 100 <> 0)).
Proof.
  rewrite gregorian_leap_votes, Z.gtb_gt.
  destruct (Z.eqb_spec ((year - s) mod 400) 0), (Z.eqb_spec ((year - s) mod 100) 0),
    (Z.eqb_spec ((year - s) mod 4) 0); split; intros H; try lia;
    exfalso; Z.div_mod_to_equations; lia.
Qed.

(** Converting a simple configuration to the legacy shape and back. *)
Lemma legacy_of_simple cfg n :
  rule cfg = Some "simple" -> cfg_interval cfg = Some n -> 0 < n ->
  convertLegacyConfig (convertToLegacyConfig (Some cfg))
  = simple n (match start cfg with Some s => s | None => 0 end).
Proof.
  intros Hr Hi Hn. unfold convertToLegacyConfig. rewrite Hr, Hi.
  change (String.eqb "simple" "none") with false.
  change (String.eqb "simple" "simple") with true. cbv iota zeta.
  unfold convertLegacyConfig. cbn [rule leapStart leapInterval].
  destruct (Z.leb_spec n 0); [lia | reflexivity].
Qed.

(** A simple configuration with a positive interval survives the trip to
    the legacy shape and back with its leap years unchanged, as long as
    its first leap year is stored under [start] (a first leap year given
    only as [leapStart] is lost on the way). *)
Theorem legacy_round_trip (cfg : LeapYearConfig) (n year : Z) (yearZeroExists : bool) :
  rule cfg = Some "simple" -> cfg_interval cfg = Some n -> 0 < n ->
  (start cfg = None -> leapStart cfg = None) ->
  isLeapYear (convertLegacyConfig (convertToLegacyConfig (Some cfg))) year yearZeroExists
  = isLeapYear (Some cfg) year yearZeroExists.
Proof.
  intros Hr Hi Hn Hs. rewrite (legacy_of_simple cfg n Hr Hi Hn).
  rewrite isLeapYear_simple by lia.
  unfold isLeapYear. rewrite Hr, Hi. cbn [nullish].
  change (String.eqb "simple" "none") with false.
  change (String.eqb "simple" "simple") with true. cbv iota zeta.
  destruct (Z.leb_spec n 0); [lia|].
  destruct (start cfg) as [s|]; [reflexivity|].
  rewrite (Hs eq_refl). reflexivity.
Qed.

Lemma legacy_round_trip_witness :
  isLeapYear (convertLegacyConfig (convertToLegacyConfig (simple 5 3))) 2023 true
  = isLeapYear (simple 5 3) 2023 true.
Proof.
  apply (legacy_round_trip (mkConfig (Some "simple") (Some 5) None (Some 3) None None) 5);
    [reflexivity | reflexivity | lia | discriminate].
Defined.

(** The legacy shape of the gregorian rule is the simple rule of every
    fourth year: it agrees with the gregorian rule on every year except
    the century years that are not multiples of 400 (counted from the
    start year), which it makes leap. *)
Theorem legacy_gregorian_approximation (s year : Z) :
  convertLegacyConfig (convertToLegacyConfig (gregorian s)) = simple 4 s
  /\ (isLeapYear (convertLegacyConfig (convertToLegacyConfig (gregorian s))) year true
       = isLeapYear (gregorian s) year true
      <-> ~ ((year - s) mod 100 = 0 /\ (year - s) mod 400 <> 0)).
Proof.
  assert (E : convertLegacyConfig (convertToLegacyConfig (gregorian s)) = simple 4 s)
    by reflexivity.
  split; [exact E|]. rewrite E.
  rewrite (simple_leap_vote 4 s year ltac:(lia)), (rem_offset_mod 4 s year ltac:(lia)).
  rewrite gregorian_leap_votes.
  destruct (Z.eqb_spec ((year - s) mod 400) 0), (Z.eqb_spec ((year - s) mod 100) 0),
    (Z.eqb_spec ((year - s) mod 4) 0); cbn [Z.add Z.gtb Z.compare Pos.compare];
    split; intros H; try reflexivity; try discriminate; try tauto;
    exfalso; try (apply H; split; assumption); Z.div_mod_to_equations; lia.
Qed.

(** A text of digits reads back as a number that is not negative. *)
Lemma parseDigits_allDigits s : forall a,
  0 <= a -> allChars isDigit s = true ->
  exists v, parseDigits (Some a) s = Some v /\ 0 <= v.
Proof.
  induction s as [|c s IH]; intros a Ha H; cbn [parseDigits allChars] in *.
  - exists a. split; [reflexivity | exact Ha].
  - apply andb_true_iff in H as [Hc Hs]. rewrite Hc.
    apply IH; [|exact Hs]. unfold digitValue. lia.
Qed.

Lemma parseInt_allDigits s :
  s <> EmptyString -> allChars isDigit s = true ->
  exists v, parseInt s = Some v /\ 0 <= v.
Proof.
  intros Hne H. destruct s as [|c s]; [congruence|].
  cbn [allChars] in H. apply andb_true_iff in H as [Hc Hs].
  assert (HP : exists v, parseDigits None (String c s) = Some v /\ 0 <= v).
  { cbn [parseDigits]. rewrite Hc. apply parseDigits_allDigits; [|exact Hs].
    unfold digitValue. lia. }
  unfold parseInt.
  rewrite trimStart_head
    by (apply negb_true_iff; exact (isDigit_notWhiteSpace _ Hc)).
  destruct (isDigit_not_sign _ Hc) as (Hm & Hp & _).
  destruct c as [b0 b1 b2 b3 b4 b5 b6 b7].
  destruct b0, b1, b2, b3, b4, b5, b6, b7; try exact HP; discriminate.
Qed.

(** What passing the test of [validatePattern] says about a part. *)
Lemma matchesSpec_shape part :
  matchesSpec part = true ->
  allChars notWhiteSpace part = true
  /\ (0 <? String.length part)%nat = true
  /\ exists v, parseInt (removeAll isBangOrPlus part) = Some v /\ 0 <= v.
Proof.
  unfold matchesSpec. intros H. apply andb_true_iff in H as [Hlen Hd].
  assert (Hkeep : forall d, allChars isDigit d = true -> removeAll isBangOrPlus d = d).
  { intros d Hdd. apply removeAll_absent, allChars_impl with (P := isDigit); [|exact Hdd].
    intros c Hc. unfold isBangOrPlus.
    destruct (isDigit_not_sign c Hc) as (_ & -> & ->). reflexivity. }
  assert (Hclean : forall d, allChars isDigit d = true -> allChars notWhiteSpace d = true).
  { intros d. apply allChars_impl, isDigit_notWhiteSpace. }
  destruct part as [|c rest]; [discriminate|].
  destruct (isBangOrPlus c) eqn:Ec.
  - split; [|split; [reflexivity|]].
    + cbn [allChars]. rewrite (Hclean _ Hd), andb_true_r.
      unfold isBangOrPlus in Ec. apply orb_true_iff in Ec as [E|E];
        apply Ascii.eqb_eq in E; subst c; reflexivity.
    + cbn [removeAll]. rewrite Ec, (Hkeep _ Hd).
      apply parseInt_allDigits; [|exact Hd].
      intros ->. discriminate.
  - split; [exact (Hclean _ Hd)|]. split; [reflexivity|].
    rewrite (Hkeep _ Hd). apply parseInt_allDigits; [discriminate | exact Hd].
Qed.

(** The parts a successful validation went through. *)
Lemma validateParts_valid parts :
  validateParts parts = Valid ->
  Forall (fun part =>
            matchesSpec part = true
            /\ exists n, parseInt (removeAll isBangOrPlus part) = Some n /\ 1 <= n) parts.
Proof.
  induction parts as [|part rest IH]; intros H; [constructor|].
  cbn [validateParts] in H.
  destruct (matchesSpec part) eqn:Em; cbn [negb] in H; [|discriminate].
  destruct (matchesSpec_shape part Em) as (_ & _ & v & Hv & _).
  rewrite Hv in H. destruct (Z.ltb_spec v 1); [discriminate|].
  constructor; [|exact (IH H)].
  split; [exact Em|]. exists v. split; [exact Hv | lia].
Qed.

(** A pattern that [validatePattern] accepts is read by [parsePattern]
    without loss: no segment is dropped as blank, and every interval is
    the number written in its segment, at least 1, with nothing clamped. *)
Theorem validatePattern_sound (pattern : string) (offset : Z) :
  validatePattern (Some pattern) = Valid ->
  let parts := map trim (split "," pattern) in
  parsePattern (Some pattern) offset = map (fun part => parseInterval part offset) parts
  /\ Forall (fun part =>
               exists n, parseInt (removeAll isBangOrPlus part) = Some n
                         /\ 1 <= n
                         /\ interval (parseInterval part offset) = n
                         /\ subtracts (parseInterval part offset) = includes part "!")
            parts.
Proof.
  intros Hv parts.
  assert (Hparts : validateParts parts = Valid).
  { unfold validatePattern in Hv. destruct pattern as [|c p]; [discriminate|].
    fold parts in Hv. destruct (List.length parts =? 0)%nat; [discriminate | exact Hv]. }
  pose proof (validateParts_valid parts Hparts) as Hall.
  split.
  - rewrite parsePattern_segments. fold parts. f_equal.
    clear Hparts Hv. induction Hall as [|part rest [Hm _] _ IH]; [reflexivity|].
    cbn [filter]. destruct (matchesSpec_shape part Hm) as (_ & -> & _).
    rewrite IH. reflexivity.
  - apply Forall_impl with (2 := Hall). intros part (Hm & n & Hn & Hge).
    destruct (matchesSpec_shape part Hm) as (Hclean & _ & _).
    exists n. rewrite (parseInterval_clean part offset Hclean). cbv zeta.
    cbn [interval subtracts]. rewrite Hn, max_orElse.
    repeat split; try assumption. lia.
Qed.

Lemma validatePattern_sound_witness :
  parsePattern (Some "400, !100,+4") 7
  = map (fun part => parseInterval part 7) (map trim (split "," "400, !100,+4")).
Proof.
  exact (proj1 (validatePattern_sound "400, !100,+4" 7 eq_refl)).
Defined.

End LeapYearMore.

(** ** The calendar: month lengths, leap years, seasons *)

Module CalendarMore.

Import MoonPhases CalendariaCalendar CalendarMethods.
#[local] Open Scope string_scope.
#[local] Open Scope list_scope.
#[local] Open Scope Z_scope.

Lemma at_of_nat {A} (arr : list A) (i : nat) : at_ arr (Z.of_nat i) = nth_error arr i.
Proof.
  unfold at_. destruct (Z.ltb_spec (Z.of_nat i) 0); [lia|]. rewrite Nat2Z.id. reflexivity.
Qed.

Lemma at_outside {A} (arr : list A) (i : Z) :
  i < 0 \/ Z.of_nat (List.length arr) <= i -> at_ arr i = None.
Proof.
  intros H. unfold at_. destruct (Z.ltb_spec i 0); [reflexivity|].
  apply nth_error_None. lia.
Qed.

Lemma fold_left_sum {A} (f : A -> Z) (l : list A) : forall acc,
  fold_left (fun sum x => sum + f x) l acc = acc + sumZ (map f l).
Proof.
  induction l as [|x l IH]; intros acc; cbn [fold_left map sumZ fold_right]; [lia|].
  rewrite IH. unfold sumZ. lia.
Qed.

Lemma map_nth_error_seq {A B} (g : option A -> B) (l : list A) :
  map (fun i => g (nth_error l i)) (seq 0 (List.length l)) = map (fun x => g (Some x)) l.
Proof.
  induction l as [|x l IH]; [reflexivity|].
  cbn [List.length seq map nth_error]. f_equal.
  rewrite <- seq_shift, map_map. exact IH.
Qed.

(** The length of a year is the sum of the lengths [getDaysInMonth] gives
    for its months, and a month index outside the calendar counts 0
    days. *)
Theorem getDaysInYear_is_sum_of_months (this : CalendarData.t) (year : Z) :
  let values := match Calendar.months (CalendarData.base this) with
                | Some vs => vs
                | None => []
                end in
  getDaysInYear this year
  = sumZ (map (fun i => getDaysInMonth this (Z.of_nat i) year) (seq 0 (List.length values)))
  /\ (forall monthIndex,
        monthIndex < 0 \/ Z.of_nat (List.length values) <= monthIndex ->
        getDaysInMonth this monthIndex year = 0).
Proof.
  intros values. split.
  - unfold getDaysInYear. fold values. cbv zeta. rewrite fold_left_sum, Z.add_0_l.
    f_equal. unfold getDaysInMonth. fold values.
    rewrite (map_ext _ (fun i => match nth_error values i with
                                 | Some month =>
                                     match isLeapYear this year, Month.leapDays month with
                                     | true, Some leapDays => leapDays
                                     | _, _ => Month.days month
                                     end
                                 | None => 0
                                 end)).
    + rewrite (map_nth_error_seq
                 (fun o => match o with
                           | Some month =>
                               match isLeapYear this year, Month.leapDays month with
                               | true, Some leapDays => leapDays
                               | _, _ => Month.days month
                               end
                           | None => 0
                           end) values).
      reflexivity.
    + intros i. rewrite at_of_nat. reflexivity.
  - intros monthIndex H. unfold getDaysInMonth. fold values.
    rewrite (at_outside values monthIndex H). reflexivity.
Qed.

Lemma getDaysInYear_is_sum_of_months_witness :
  12 <= 12 /\ getDaysInMonth Almanac.legacyCalendar 12 2024 = 0.
Proof.
  split; [lia|].
  apply (proj2 (getDaysInYear_is_sum_of_months Almanac.legacyCalendar 2024)).
  right. cbn. lia.
Defined.

(** Without an advanced rule (none configured, or the rule none), the
    calendar falls back on its own [leapInterval] and [leapStart] as a
    simple rule: the leap years are those that differ from [leapStart] by
    a multiple of [leapInterval]. *)
Theorem isLeapYear_fallback (this : CalendarData.t) (legacy : LeapYearUtils.LeapYearConfig)
    (n year : Z) :
  (CalendarData.leapYearConfig this = None
   \/ exists cfg, CalendarData.leapYearConfig this = Some cfg
                  /\ (LeapYearUtils.rule cfg = None \/ LeapYearUtils.rule cfg = Some ""
                      \/ LeapYearUtils.rule cfg = Some "none")) ->
  CalendarData.leapYear this = Some legacy ->
  LeapYearUtils.leapInterval legacy = Some n -> 1 <= n ->
  isLeapYear this year = true
  <-> (year - orZ (LeapYearUtils.leapStart legacy) 0) mod n = 0.
Proof.
  intros Hadv Hl Hi Hn.
  assert (E : isLeapYear this year
              = LeapYearUtils.isLeapYear
                  (LeapYearConversion.simple n (orZ (LeapYearUtils.leapStart legacy) 0))
                  year true).
  { unfold isLeapYear. rewrite Hl, Hi.
    destruct (Z.leb_spec n 0); [lia|].
    destruct Hadv as [Ha|(cfg & Ha & Hr)]; rewrite Ha; [reflexivity|].
    destruct Hr as [Hr|[Hr|Hr]]; rewrite Hr; reflexivity. }
  rewrite E, (LeapYearMore.simple_leap_vote n _ year Hn),
    (LeapYearMore.rem_offset_mod n _ year Hn).
  apply Z.eqb_eq.
Qed.

Lemma isLeapYear_fallback_witness :
  isLeapYear Almanac.legacyCalendar 2025 = true <-> (2025 - 1) mod 4 = 0.
Proof.
  apply (isLeapYear_fallback _ (LeapYearUtils.mkConfig None None (Some 4) None (Some 1) None) 4);
    [left; reflexivity | reflexivity | reflexivity | lia].
Defined.

(** With months loaded nothing in [getCurrentSeason] throws. *)
Lemma seasonMatches_loaded this components dayOfYear season values :
  Calendar.months (CalendarData.base this) = Some values ->
  exists b, seasonMatches this components dayOfYear season = Some b.
Proof.
  intros Hm. unfold seasonMatches. rewrite Hm.
  destruct (Season.dayStart season), (Season.dayEnd season),
    (Season.monthStart season), (Season.monthEnd season); eexists; reflexivity.
Qed.

Lemma dayOfYear_loaded base components values (h : Store.t) :
  Calendar.months base = Some values ->
  exists d, fst (dayOfYearUnguarded base components h) = Some d.
Proof.
  intros Hm. unfold dayOfYearUnguarded. rewrite Hm.
  destruct (TimeComponents.month components <=? 0); eexists; reflexivity.
Qed.

Lemma firstSeason_loaded this components dayOfYear values seasons :
  Calendar.months (CalendarData.base this) = Some values ->
  (exists season, firstSeason this components dayOfYear seasons = Some (Some season)
                  /\ In season seasons
                  /\ seasonMatches this components dayOfYear season = Some true)
  \/ (firstSeason this components dayOfYear seasons = Some None
      /\ forall season, In season seasons ->
                        seasonMatches this components dayOfYear season = Some false).
Proof.
  intros Hm. induction seasons as [|s rest IH]; cbn [firstSeason].
  - right. split; [reflexivity | intros ? []].
  - destruct (seasonMatches_loaded this components dayOfYear s values Hm) as [[|] Hb];
      rewrite Hb.
    + left. exists s. repeat split; [left; reflexivity | exact Hb].
    + destruct IH as [(x & Hx & Hin & Hmx)|[Hn Hall]].
      * left. exists x. repeat split; [exact Hx | right; exact Hin | exact Hmx].
      * right. split; [exact Hn|]. intros x [<-|Hin]; [exact Hb | exact (Hall x Hin)].
Qed.

(** When seasons are configured and the months are loaded,
    [getCurrentSeason] never answers null: it returns a season of the
    list, one whose range holds the date, or, when no range does, the
    first season. *)
Theorem getCurrentSeason_never_null
    (this : CalendarData.t) (components : TimeComponents.t)
    (values : list Month.t) (first : Season.t) (rest : list Season.t) :
  Calendar.months (CalendarData.base this) = Some values ->
  CalendarData.seasons this = Some (first :: rest) ->
  exists season dayOfYear,
    getCurrentSeason this components = Some (Some season)
    /\ In season (first :: rest)
    /\ fst (dayOfYearUnguarded (CalendarData.base this) components []) = Some dayOfYear
    /\ (seasonMatches this components dayOfYear season = Some true
        \/ (season = first
            /\ forall s, In s (first :: rest) ->
                         seasonMatches this components dayOfYear s = Some false)).
Proof.
  intros Hm Hs.
  destruct (dayOfYear_loaded (CalendarData.base this) components values [] Hm) as [d Hd].
  unfold getCurrentSeason. rewrite Hs, Hd.
  destruct (firstSeason_loaded this components d values (first :: rest) Hm)
    as [(x & Hx & Hin & Hmx)|[Hn Hall]].
  - rewrite Hx. exists x, d. repeat split; try assumption. left. exact Hmx.
  - rewrite Hn. exists first, d. cbn [nth_error].
    repeat split; [left; reflexivity|]. right. split; [reflexivity | exact Hall].
Qed.

(** A winter from day 354 to day 77 and a summer in between, on day 10. *)
Lemma getCurrentSeason_never_null_witness :
  exists season dayOfYear,
    getCurrentSeason Almanac.seasonCalendar (Fixtures.noon 1600 0 10) = Some (Some season)
    /\ In season [Almanac.summer; Almanac.winter]
    /\ dayOfYear = 10.
Proof.
  destruct (getCurrentSeason_never_null Almanac.seasonCalendar
              (Fixtures.noon 1600 0 10) Fixtures.twelveMonths _ _ eq_refl eq_refl)
    as (season & d & Hres & Hin & Hd & _).
  exists season, d. repeat split; [exact Hres | exact Hin|].
  vm_compute in Hd. injection Hd as <-. reflexivity.
Defined.

(** A season given by months covers the dates from (monthStart, startDay)
    to (monthEnd, endDay) in the order of the calendar, and the dates
    outside the gap between them when it wraps around the end of the
    year; a season whose two months are the same matches, in that month,
    every day that is on or after its start day or on or before its end
    day. *)
Theorem inMonthRange_dates (monthStart monthEnd startDay endDay currentMonth day : Z) :
  (monthStart < monthEnd ->
   (inMonthRange monthStart monthEnd startDay endDay currentMonth day = true
    <-> dateLe monthStart startDay currentMonth day
        /\ dateLe currentMonth day monthEnd endDay))
  /\ (monthEnd < monthStart ->
      (inMonthRange monthStart monthEnd startDay endDay currentMonth day = true
       <-> dateLe monthStart startDay currentMonth day
           \/ dateLe currentMonth day monthEnd endDay))
  /\ (monthStart = monthEnd ->
      (inMonthRange monthStart monthEnd startDay endDay currentMonth day = true
       <-> currentMonth = monthStart /\ (startDay <= day \/ day <= endDay))).
Proof.
  unfold inMonthRange, dateLe.
  repeat split; intros;
    destruct (Z.leb_spec monthStart monthEnd), (Z.ltb_spec monthStart currentMonth),
      (Z.ltb_spec currentMonth monthEnd), (Z.eqb_spec currentMonth monthStart),
      (Z.eqb_spec currentMonth monthEnd), (Z.leb_spec startDay day),
      (Z.leb_spec day endDay); cbn [andb orb] in *;
    try lia; try discriminate; try reflexivity.
Qed.

Lemma inMonthRange_dates_witness :
  2 < 11 /\ inMonthRange 11 2 15 10 12 31 = true.
Proof.
  split; [lia|].
  apply (proj1 (proj2 (inMonthRange_dates 11 2 15 10 12 31))); [lia|].
  left. left. lia.
Defined.

(** A season given by days of the year that wraps around the end of the
    year holds exactly the days that the gap it leaves does not. *)
Theorem inDayRange_wraparound (dayStart dayEnd dayOfYear : Z) :
  dayEnd + 1 < dayStart ->
  inDayRange dayStart dayEnd dayOfYear
  = negb (inDayRange (dayEnd + 1) (dayStart - 1) dayOfYear).
Proof.
  intros H. unfold inDayRange.
  destruct (Z.leb_spec dayStart dayEnd), (Z.leb_spec (dayEnd + 1) (dayStart - 1)),
    (Z.leb_spec dayStart dayOfYear), (Z.leb_spec dayOfYear dayEnd),
    (Z.leb_spec (dayEnd + 1) dayOfYear), (Z.leb_spec dayOfYear (dayStart - 1));
    cbn [andb orb negb]; try reflexivity; lia.
Qed.

Lemma inDayRange_wraparound_witness :
  inDayRange 354 77 360 = negb (inDayRange (77 + 1) (354 - 1) 360).
Proof.
  apply inDayRange_wraparound. lia.
Defined.

End CalendarMore.

(** ** Daylight: the solar day in every mode *)

Module DaylightMore.

Import CalendariaCalendar CalendarMethods DaylightFacts.
#[local] Open Scope Q_scope.

Section AnyMode.

Variable dynamicDaylightHours : Calendar.t -> TimeComponents.t -> Q.

(** Sunrise and sunset mirror each other around the middle of the day
    whatever the daylight hours are: they add up to [hoursPerDay], solar
    midday is always [hoursPerDay / 2] and solar midnight always
    [hoursPerDay], also under dynamic daylight. *)
Theorem solar_day_is_centred (this : Calendar.t) (time : TimeComponents.t) :
  let hoursPerDay := inject_Z (Days.hoursPerDay (Calendar.days this)) in
  sunrise dynamicDaylightHours this time + sunset dynamicDaylightHours this time == hoursPerDay
  /\ solarMidday dynamicDaylightHours this time == hoursPerDay / 2
  /\ solarMidnight dynamicDaylightHours this time == hoursPerDay.
Proof.
  cbv zeta. unfold solarMidday, solarMidnight, daylightHours, sunset, sunrise. cbv zeta.
  repeat split; field.
Qed.

(** In static mode the sun rises at a quarter of the day and sets at
    three quarters of it. *)
Theorem static_sunrise_sunset (this : Calendar.t) (time : TimeComponents.t) :
  (forall dl, Calendar.daylight this = Some dl -> Daylight.enabled dl = false) ->
  let hoursPerDay := inject_Z (Days.hoursPerDay (Calendar.days this)) in
  sunrise dynamicDaylightHours this time == hoursPerDay * (1 # 4)
  /\ sunset dynamicDaylightHours this time == hoursPerDay * (3 # 4).
Proof.
  intros Hs hpd.
  assert (Hd : _getDaylightHoursForDay dynamicDaylightHours this time == hpd * (1 # 2)).
  { unfold _getDaylightHoursForDay.
    destruct (Calendar.daylight this) as [dl|]; [rewrite (Hs dl eq_refl)|];
      cbn [negb]; reflexivity. }
  unfold sunrise, sunset. cbv zeta. fold hpd. rewrite Hd. split; field.
Qed.

(** [progressDay] is the fraction of the daylight elapsed, in every mode:
    0 at sunrise, 1 at sunset and between the two in between, as long as
    there is daylight at all. *)
Theorem progressDay_fraction (this : Calendar.t) (time : TimeComponents.t) :
  let hour := hoursOfDay time this in
  let sunrise := sunrise dynamicDaylightHours this time in
  let sunset := sunset dynamicDaylightHours this time in
  0 < _getDaylightHoursForDay dynamicDaylightHours this time ->
  sunrise <= hour -> hour <= sunset ->
  progressDay dynamicDaylightHours this time == (hour - sunrise) / (sunset - sunrise)
  /\ 0 <= progressDay dynamicDaylightHours this time
  /\ progressDay dynamicDaylightHours this time <= 1
  /\ (hour == sunrise -> progressDay dynamicDaylightHours this time == 0)
  /\ (hour == sunset -> progressDay dynamicDaylightHours this time == 1).
Proof.
  intros hour sr ss Hpos Hlo Hhi.
  pose proof (daylightHours_value dynamicDaylightHours this time) as Hd.
  assert (Hdl : 0 < daylightHours dynamicDaylightHours this time) by (rewrite Hd; exact Hpos).
  unfold progressDay. fold hour sr.
  assert (Hss : daylightHours dynamicDaylightHours this time == ss - sr) by reflexivity.
  split; [reflexivity|]. split; [|split; [|split]].
  - apply Qle_shift_div_l; [exact Hdl | lra].
  - apply Qle_shift_div_r; [exact Hdl | rewrite Hss; lra].
  - intros E. rewrite E. field. rewrite Hss in Hdl. lra.
  - intros E. rewrite E, Hss. field. rewrite Hss in Hdl. lra.
Qed.

End AnyMode.

(** Noon on the winter solstice of the dynamic default calendar. *)
Lemma progressDay_fraction_witness :
  0 <= progressDay Fixtures.winterSolsticeHours (Fixtures.daylightCalendar true)
         (Fixtures.noon 1600 11 25)
  /\ progressDay Fixtures.winterSolsticeHours (Fixtures.daylightCalendar true)
       (Fixtures.noon 1600 11 25) <= 1.
Proof.
  pose proof (progressDay_fraction Fixtures.winterSolsticeHours
                (Fixtures.daylightCalendar true) (Fixtures.noon 1600 11 25)) as H.
  cbv zeta in H.
  destruct H as (_ & Hlo & Hhi & _).
  - reflexivity.
  - vm_compute. discriminate.
  - vm_compute. discriminate.
  - split; assumption.
Defined.

Lemma static_sunrise_sunset_witness :
  sunrise Fixtures.winterSolsticeHours (Fixtures.daylightCalendar false)
    (Fixtures.noon 1600 0 0) == 24 * (1 # 4).
Proof.
  refine (proj1 (static_sunrise_sunset Fixtures.winterSolsticeHours
                   (Fixtures.daylightCalendar false) (Fixtures.noon 1600 0 0) _)).
  intros dl Hdl. injection Hdl as <-. reflexivity.
Defined.

(** With minutes and seconds within their units, the decimal hour lies in
    the hour of the clock: from [hour] up to, not reaching, [hour + 1]. *)
Theorem hoursOfDay_within_hour (time : TimeComponents.t) (calendar : Calendar.t) :
  let d := Calendar.days calendar in
  (0 <= TimeComponents.minute time < Days.minutesPerHour d)%Z ->
  (0 <= TimeComponents.second time < Days.secondsPerMinute d)%Z ->
  inject_Z (TimeComponents.hour time) <= hoursOfDay time calendar
  /\ hoursOfDay time calendar < inject_Z (TimeComponents.hour time) + 1.
Proof.
  intros d [Hm0 Hm1] [Hs0 Hs1]. unfold hoursOfDay. fold d.
  set (m := TimeComponents.minute time) in *. set (sec := TimeComponents.second time) in *.
  set (mph := Days.minutesPerHour d) in *. set (spm := Days.secondsPerMinute d) in *.
  assert (Hspm : 0 < inject_Z spm) by (unfold Qlt; cbn; lia).
  assert (Hmph : 0 < inject_Z mph) by (unfold Qlt; cbn; lia).
  assert (Hsq0 : 0 <= inject_Z sec) by (unfold Qle; cbn; lia).
  assert (Hsq1 : inject_Z sec < inject_Z spm) by (unfold Qlt; cbn; lia).
  assert (Hf0 : 0 <= inject_Z sec / inject_Z spm).
  { apply Qle_shift_div_l; [exact Hspm | lra]. }
  assert (Hf1 : inject_Z sec / inject_Z spm < 1).
  { apply Qlt_shift_div_r; [exact Hspm | lra]. }
  assert (Hmq0 : 0 <= inject_Z m) by (unfold Qle; cbn; lia).
  assert (Hmq1 : inject_Z m + 1 <= inject_Z mph).
  { unfold Qle, Qplus; cbn. lia. }
  split.
  - assert (0 <= (inject_Z m + inject_Z sec / inject_Z spm) / inject_Z mph); [|lra].
    apply Qle_shift_div_l; [exact Hmph | lra].
  - assert ((inject_Z m + inject_Z sec / inject_Z spm) / inject_Z mph < 1); [|lra].
    apply Qlt_shift_div_r; [exact Hmph | lra].
Qed.

Lemma hoursOfDay_within_hour_witness :
  hoursOfDay (TimeComponents.mk 1600 0 0 7 59 59) (Fixtures.daylightCalendar false) < 7 + 1.
Proof.
  refine (proj2 (hoursOfDay_within_hour (TimeComponents.mk 1600 0 0 7 59 59)
                   (Fixtures.daylightCalendar false) _ _)); cbn; lia.
Defined.

End DaylightMore.

(** ** Moon phases: the cycle as a whole *)

Module MoonMore.

Import MoonPhases MoonFacts MoonThirds.
#[local] Open Scope list_scope.
#[local] Open Scope Z_scope.






(** The result of [getMoonPhase] past its guard, spelled out. *)
Lemma moonPhaseOf_explicit moon cycleLength since :
  Moon.cycleLength moon = Finite cycleLength -> 0 < cycleLength ->
  Moon.phases moon <> [] ->
  let adjust := match Moon.cycleDayAdjust moon with Finite a => a | NotFinite => 0 end in
  let dayIndex := daysIntoCycle since cycleLength adjust in
  let phaseDays :=
    buildPhaseDayDistribution cycleLength (Z.of_nat (List.length (Moon.phases moon))) in
  exists i w phase,
    locatePhase phaseDays 0 0 dayIndex = Some (i, w)
    /\ nth_error (Moon.phases moon) i = Some phase
    /\ 0 <= w < nth i phaseDays 0
    /\ moonPhaseOf moon (Finite since)
       = Some (MoonPhaseResult.mk (Phase.name phase)
                 (getSubPhaseName phase w (nth i phaseDays 0))
                 (strOr (Phase.icon phase) "")
                 (inject_Z dayIndex / inject_Z cycleLength)%Q dayIndex
                 (Some i) (Some w) (Some (nth i phaseDays 0))).
Proof.
  destruct moon as [moonName cl cycleDayAdjust phases referenceDate].
  cbn [Moon.cycleLength Moon.phases Moon.cycleDayAdjust]. intros -> Hpos Hne.
  destruct phases as [|p0 ps]; [congruence|].
  set (adjust := match cycleDayAdjust with Finite a => a | NotFinite => 0 end).
  set (phaseDays := buildPhaseDayDistribution cycleLength (Z.of_nat (List.length (p0 :: ps)))).
  pose proof (daysIntoCycle_range since cycleLength adjust Hpos) as Hrange.
  assert (Hn : 1 <= Z.of_nat (List.length (p0 :: ps))) by (cbn [List.length]; lia).
  destruct (distribution_shape cycleLength _ ltac:(lia) Hn) as (Hlen & Hnn & Hsum).
  fold phaseDays in Hlen, Hnn, Hsum.
  destruct (locatePhase_finds phaseDays 0 0 (daysIntoCycle since cycleLength adjust) Hnn)
    as (i & w & Hf & Hi & Hw); [lia|].
  rewrite Nat.sub_0_r in Hw.
  destruct (nth_error (p0 :: ps) i) as [phase|] eqn:Ep.
  2:{ apply nth_error_None in Ep. lia. }
  exists i, w, phase. split; [exact Hf|]. split; [exact Ep|]. split; [exact Hw|].
  unfold moonPhaseOf. cbn [Moon.cycleLength Moon.phases Moon.cycleDayAdjust].
  destruct (Z.leb_spec cycleLength 0) as [|_]; [lia|].
  fold adjust. cbv zeta. fold phaseDays. rewrite Hf, Ep. reflexivity.
Qed.



Lemma first_third w dur :
  Qltb (inject_Z w) (inject_Z dur / 3) = (3 * w <? dur).
Proof.
  remember (3 * w <? dur) as b eqn:Eb.
  unfold Qltb, Qle_bool, Qdiv, Qmult, Qinv, inject_Z. cbn. subst b.
  destruct (Z.leb_spec (dur * 1 * 1) (w * 3)), (Z.ltb_spec (3 * w) dur);
    cbn [negb]; try reflexivity; lia.
Qed.

Lemma last_third w dur :
  Qle_bool (inject_Z dur - inject_Z dur / 3) (inject_Z w) = (2 * dur <=? 3 * w).
Proof.
  remember (2 * dur <=? 3 * w) as b eqn:Eb.
  unfold Qle_bool, Qminus, Qplus, Qopp, Qdiv, Qmult, Qinv, inject_Z. cbn. subst b.
  match goal with |- (?x <=? ?y) = _ =>
    destruct (Z.leb_spec x y), (Z.leb_spec (2 * dur) (3 * w)); try reflexivity; lia
  end.
Qed.

(** The thirds of a phase, in whole days: in a phase of more than one
    day, a day is rising when three times its number is below the
    duration, fading when it has reached twice the duration, and plain in
    between; so the first day is always rising, and a phase of two days
    has no fading day. *)
Theorem getSubPhaseName_thirds (phase : Phase.t) (dayWithinPhase phaseDuration : Z) :
  getSubPhaseName phase dayWithinPhase phaseDuration
  = subPhaseByThirds phase dayWithinPhase phaseDuration
  /\ (1 < phaseDuration -> getSubPhaseName phase 0 phaseDuration = risingLabel phase)
  /\ getSubPhaseName phase 1 2 = Localize (Phase.name phase).
Proof.
  assert (E : forall w dur, getSubPhaseName phase w dur = subPhaseByThirds phase w dur).
  { intros w dur. unfold getSubPhaseName, subPhaseByThirds. cbv zeta.
    rewrite first_third, last_third. reflexivity. }
  split; [apply E|]. split.
  - intros H. rewrite E. unfold subPhaseByThirds.
    destruct (Z.leb_spec phaseDuration 1); [lia|].
    destruct (Z.ltb_spec (3 * 0) phaseDuration); [reflexivity | lia].
  - rewrite E. reflexivity.
Qed.

Lemma getSubPhaseName_thirds_witness :
  1 < 4 /\ getSubPhaseName Fixtures.fullMoon 0 4 = risingLabel Fixtures.fullMoon.
Proof.
  split; [lia|].
  apply (proj1 (proj2 (getSubPhaseName_thirds Fixtures.fullMoon 0 4))). lia.
Defined.

(** A moon of eight phases whose cycle is shorter than eight days gives
    no day to its two primary phases: new moon (index 0) and full moon
    (index 4) are never reported. *)
Theorem short_cycle_skips_primary (moon : Moon.t) (cycleLength since : Z) :
  Moon.cycleLength moon = Finite cycleLength -> 0 < cycleLength < 8 ->
  List.length (Moon.phases moon) = 8%nat ->
  exists r i,
    moonPhaseOf moon (Finite since) = Some r
    /\ MoonPhaseResult.phaseIndex r = Some i
    /\ i <> 0%nat /\ i <> 4%nat.
Proof.
  intros HL Hc H8.
  assert (Hne : Moon.phases moon <> []) by (intros E; rewrite E in H8; discriminate).
  destruct (moonPhaseOf_explicit moon cycleLength since HL ltac:(lia) Hne)
    as (i & w & phase & _ & _ & Hw & Hr).
  rewrite H8 in Hw. change (Z.of_nat 8) with 8 in Hw.
  rewrite distribution_eight_unrolled in Hw. cbv zeta in Hw.
  assert (Hz : cycleLength / 8 = 0) by (apply Z.div_small; lia).
  eexists _, i. split; [exact Hr|]. cbn [MoonPhaseResult.phaseIndex].
  split; [reflexivity|].
  split; intros ->; cbn [nth] in Hw; lia.
Qed.

Lemma short_cycle_skips_primary_witness :
  exists r i,
    moonPhaseOf Almanac.swift (Finite 0) = Some r
    /\ MoonPhaseResult.phaseIndex r = Some i /\ i <> 0%nat.
Proof.
  destruct (short_cycle_skips_primary Almanac.swift 6 0 eq_refl ltac:(lia) eq_refl)
    as (r & i & Hr & Hi & H0 & _).
  exists r, i. repeat split; assumption.
Defined.

Section AtReference.

Import CalendariaCalendar.

Variable componentsToTime : Calendar.t -> Z -> Z -> Z -> Z -> Z -> Num.



End AtReference.


End MoonMore.

(** ** Eras: repeated calls, bounds and ties *)

Module EraMore.

Import Store CalendariaCalendar EraFacts EraChoice.
#[local] Open Scope list_scope.
#[local] Open Scope Z_scope.

(** [getCurrentEra] can be asked again: with at least one era it never
    answers null, and a second call on the store the first call left
    gives the same answer (the sorted copy it leaves behind is never read
    again). *)
Theorem getCurrentEra_repeatable
    (this : Calendar.t) (time : TimeComponents.t) (h : Store.t) (r : Store.ref) :
  Calendar.eras this = Some r -> get r h <> [] ->
  exists m,
    fst (getCurrentEra this time h) = Some (Some m)
    /\ fst (getCurrentEra this time (snd (getCurrentEra this time h))) = Some (Some m)
    /\ get r (snd (getCurrentEra this time h)) = get r h.
Proof.
  intros He Hne.
  pose proof (get_nonempty_valid r h Hne) as Hr.
  pose proof (getCurrentEra_run this time h r He Hne) as H1. cbv zeta in H1.
  rewrite H1. cbn [fst snd].
  assert (Hg : get r (h ++ [sorted byStartYearDesc (get r h)]) = get r h)
    by (apply get_app_old, Hr).
  assert (Hne' : get r (h ++ [sorted byStartYearDesc (get r h)]) <> [])
    by (rewrite Hg; exact Hne).
  pose proof (getCurrentEra_run this time _ r He Hne') as H2. cbv zeta in H2.
  rewrite H2, Hg. cbn [fst].
  destruct (find _ (sorted byStartYearDesc (get r h))) as [era|].
  - eexists. repeat split.
  - destruct (get r h) as [|e0 rest]; [congruence|]. eexists. repeat split.
Qed.

Lemma getCurrentEra_repeatable_witness :
  exists m,
    fst (getCurrentEra Fixtures.eraCalendar (Fixtures.noon 1200 0 0) Fixtures.eraStore)
    = Some (Some m)
    /\ fst (getCurrentEra Fixtures.eraCalendar (Fixtures.noon 1200 0 0)
              (snd (getCurrentEra Fixtures.eraCalendar (Fixtures.noon 1200 0 0)
                      Fixtures.eraStore)))
       = Some (Some m).
Proof.
  destruct (getCurrentEra_repeatable Fixtures.eraCalendar (Fixtures.noon 1200 0 0)
              Fixtures.eraStore 0%nat eq_refl ltac:(discriminate))
    as (m & H1 & H2 & _).
  exists m. split; assumption.
Defined.

(** Where [insert] puts an era, seen from a search for the first era that
    satisfies a test in a list with later start years first. *)
Lemma find_insert (f : Era.t -> bool) x l :
  StronglySorted laterFirst l ->
  find f (insert byStartYearDesc x l)
  = if f x then
      match find f l with
      | Some b => if Era.startYear b >? Era.startYear x then Some b else Some x
      | None => Some x
      end
    else find f l.
Proof.
  induction 1 as [|y l Hs IH Hy]; cbn [insert find].
  - destruct (f x); reflexivity.
  - unfold byStartYearDesc at 1.
    destruct (Z.gtb_spec (Era.startYear y - Era.startYear x) 0) as [Hgt|Hle]; cbn [find].
    + rewrite IH. destruct (f y) eqn:Ey; [|reflexivity].
      destruct (f x); [|reflexivity].
      destruct (Z.gtb_spec (Era.startYear y) (Era.startYear x)); [reflexivity | lia].
    + destruct (f x); [|reflexivity].
      destruct (f y) eqn:Ey.
      * destruct (Z.gtb_spec (Era.startYear y) (Era.startYear x)); [lia | reflexivity].
      * destruct (find f l) as [b|] eqn:Ef; [|reflexivity].
        destruct (find_some _ _ Ef) as [Hb _].
        rewrite Forall_forall in Hy. specialize (Hy b Hb). unfold laterFirst in Hy.
        destruct (Z.gtb_spec (Era.startYear b) (Era.startYear x)); [lia | reflexivity].
Qed.

(** Sorting and searching chooses as one pass over the list does. *)
Lemma find_sorted_latest displayYear eras :
  find (eraCovers displayYear) (sorted byStartYearDesc eras) = latestCovering displayYear eras.
Proof.
  induction eras as [|x l IH]; [reflexivity|].
  cbn [sorted fold_right]. fold (sorted byStartYearDesc l).
  rewrite find_insert by apply sorted_descending.
  rewrite IH. reflexivity.
Qed.

Lemma latestCovering_bound displayYear l b :
  latestCovering displayYear l = Some b -> In b l /\ eraCovers displayYear b = true.
Proof.
  revert b. induction l as [|x l IH]; intros b H; [discriminate|].
  cbn [latestCovering fold_right] in H. fold (latestCovering displayYear l) in H.
  unfold keepLatest in H.
  destruct (eraCovers displayYear x) eqn:Ex.
  - destruct (latestCovering displayYear l) as [c|].
    + destruct (Era.startYear c >? Era.startYear x).
      * injection H as <-. destruct (IH c eq_refl). split; [right|]; assumption.
      * injection H as <-. split; [left; reflexivity | exact Ex].
    + injection H as <-. split; [left; reflexivity | exact Ex].
  - destruct (IH b H). split; [right|]; assumption.
Qed.

(** Which era wins, ties included: an era that covers the display year is
    the one returned when every covering era defined before it starts
    strictly earlier and every covering era defined after it starts no
    later; among covering eras with the same latest start year the first
    defined wins. *)
Theorem getCurrentEra_tie_break
    (this : Calendar.t) (time : TimeComponents.t) (h : Store.t) (r : Store.ref)
    (before after : list Era.t) (era : Era.t) :
  Calendar.eras this = Some r ->
  get r h = before ++ era :: after ->
  let displayYear := TimeComponents.year time + orZ (Calendar.yearZero this) 0 in
  eraCovers displayYear era = true ->
  (forall e, In e before -> eraCovers displayYear e = true ->
             Era.startYear e < Era.startYear era) ->
  (forall e, In e after -> eraCovers displayYear e = true ->
             Era.startYear e <= Era.startYear era) ->
  fst (getCurrentEra this time h)
  = Some (Some (eraResult era (displayYear - Era.startYear era + 1))).
Proof.
  intros He Hg displayYear Hc Hbefore Hafter.
  assert (Hne : get r h <> []) by (rewrite Hg; destruct before; discriminate).
  pose proof (getCurrentEra_run this time h r He Hne) as Hrun. cbv zeta in Hrun.
  fold displayYear in Hrun. rewrite Hrun, find_sorted_latest, Hg. cbn [fst].
  assert (Hat : latestCovering displayYear (era :: after) = Some era).
  { cbn [latestCovering fold_right]. fold (latestCovering displayYear after).
    unfold keepLatest. rewrite Hc.
    destruct (latestCovering displayYear after) as [b|] eqn:Eb; [|reflexivity].
    destruct (latestCovering_bound _ _ _ Eb) as [Hin Hcb].
    specialize (Hafter b Hin Hcb).
    destruct (Z.gtb_spec (Era.startYear b) (Era.startYear era)); [lia | reflexivity]. }
  assert (Hall : latestCovering displayYear (before ++ era :: after) = Some era).
  { clear Hg Hrun Hne. induction before as [|x l IH]; [exact Hat|].
    cbn [app latestCovering fold_right].
    fold (latestCovering displayYear (l ++ era :: after)).
    rewrite IH by (intros e Hin; apply Hbefore; right; exact Hin).
    unfold keepLatest. destruct (eraCovers displayYear x) eqn:Ex; [|reflexivity].
    pose proof (Hbefore x (or_introl eq_refl) Ex).
    destruct (Z.gtb_spec (Era.startYear era) (Era.startYear x)); [reflexivity | lia]. }
  rewrite Hall. reflexivity.
Qed.

(** Two eras that both start in 1000: the first defined answers. *)
Lemma getCurrentEra_tie_break_witness :
  fst (getCurrentEra Fixtures.eraCalendar (Fixtures.noon 1200 0 0)
         [[Fixtures.firstAge; Almanac.twinAge; Fixtures.secondAge]])
  = Some (Some (eraResult Fixtures.firstAge (1200 + 0 - 1000 + 1))).
Proof.
  apply (getCurrentEra_tie_break Fixtures.eraCalendar (Fixtures.noon 1200 0 0)
           [[Fixtures.firstAge; Almanac.twinAge; Fixtures.secondAge]]
           0%nat [] [Almanac.twinAge; Fixtures.secondAge]
           Fixtures.firstAge eq_refl eq_refl eq_refl).
  - intros e [].
  - intros e [<-|[<-|[]]] H; [cbn; lia | discriminate].
Defined.

(** When some era covers the display year, the year within the era that
    [getCurrentEra] reports is at least 1, is the smallest that any
    covering era would give, and does not pass the length of an era that
    has an end year. *)
Theorem yearInEra_bounds
    (this : Calendar.t) (time : TimeComponents.t) (h : Store.t) (r : Store.ref)
    (era : Era.t) :
  Calendar.eras this = Some r ->
  let displayYear := TimeComponents.year time + orZ (Calendar.yearZero this) 0 in
  In era (get r h) -> eraCovers displayYear era = true ->
  exists m best,
    fst (getCurrentEra this time h) = Some (Some m)
    /\ In best (get r h)
    /\ EraMatch.name m = Era.name best
    /\ EraMatch.yearInEra m = displayYear - Era.startYear best + 1
    /\ 1 <= EraMatch.yearInEra m
    /\ (forall e, In e (get r h) -> eraCovers displayYear e = true ->
                  EraMatch.yearInEra m <= displayYear - Era.startYear e + 1)
    /\ (forall endYear, Era.endYear best = Some endYear ->
                        EraMatch.yearInEra m <= endYear - Era.startYear best + 1).
Proof.
  intros He displayYear Hin Hcov.
  assert (Hne : get r h <> []) by (intros E; rewrite E in Hin; contradiction).
  pose proof (getCurrentEra_run this time h r He Hne) as Hrun. cbv zeta in Hrun.
  fold displayYear in Hrun.
  pose proof (sorted_perm (get r h)) as Hperm.
  pose proof (sorted_descending (get r h)) as Hdesc.
  destruct (find (eraCovers displayYear) (sorted byStartYearDesc (get r h)))
    as [best|] eqn:Ef.
  - destruct (find_some _ _ Ef) as [Hb Hbc].
    exists (eraResult best (displayYear - Era.startYear best + 1)), best.
    rewrite Hrun. cbn [fst eraResult EraMatch.name EraMatch.yearInEra].
    unfold eraCovers in Hbc. apply andb_true_iff in Hbc as [Hs Hend].
    apply Z.leb_le in Hs.
    repeat split; try reflexivity.
    + exact (Permutation_in _ Hperm Hb).
    + lia.
    + intros e Hein Hec.
      pose proof (find_first_descending _ _ best Hdesc Ef e
                    (Permutation_in _ (Permutation_sym Hperm) Hein) Hec). lia.
    + intros endYear Hey. rewrite Hey in Hend. apply Z.leb_le in Hend. lia.
  - exfalso.
    pose proof (find_none _ _ Ef era (Permutation_in _ (Permutation_sym Hperm) Hin)).
    congruence.
Qed.

Lemma yearInEra_bounds_witness :
  exists m,
    fst (getCurrentEra Fixtures.eraCalendar (Fixtures.noon 1600 0 0) Fixtures.eraStore)
    = Some (Some m)
    /\ 1 <= EraMatch.yearInEra m.
Proof.
  destruct (yearInEra_bounds Fixtures.eraCalendar (Fixtures.noon 1600 0 0)
              Fixtures.eraStore 0%nat Fixtures.firstAge eq_refl
              (or_introl eq_refl) eq_refl)
    as (m & best & Hm & _ & _ & _ & H1 & _).
  exists m. split; assumption.
Defined.

End EraMore.

(** ** Cycles: progression, offsets and the values returned *)

Module CycleMore.

Import Store CalendariaCalendar CycleFacts CycleValues.
#[local] Open Scope string_scope.
#[local] Open Scope list_scope.
#[local] Open Scope Z_scope.

(** A cycle moves on by one entry, wrapping at the end, every [length]
    units of its epoch value, and is back where it was after
    [length * entries.length] units. *)
Theorem cycle_advances (epochValue length offset n : Z) :
  0 < n -> length <> 0 ->
  cycleIndexOf (epochValue + length) length offset n
  = (cycleIndexOf epochValue length offset n + 1) mod n
  /\ cycleIndexOf (epochValue + length * n) length offset n
     = cycleIndexOf epochValue length offset n.
Proof.
  intros Hn Hl.
  rewrite !(proj1 (cycleIndexOf_mod _ length offset n Hn)).
  split.
  - replace (epochValue + length) with (epochValue + 1 * length) by lia.
    rewrite Z.div_add by exact Hl.
    rewrite Zplus_mod_idemp_l. f_equal. lia.
  - replace (epochValue + length * n) with (epochValue + n * length) by lia.
    rewrite Z.div_add by exact Hl.
    replace (epochValue / length + n + offset / length)
      with (epochValue / length + offset / length + 1 * n) by lia.
    apply Z_mod_plus_full.
Qed.

Lemma cycle_advances_witness :
  cycleIndexOf (25 + 12) 12 0 12 = (cycleIndexOf 25 12 0 12 + 1) mod 12.
Proof.
  apply (proj1 (cycle_advances 25 12 0 12 ltac:(lia) ltac:(lia))).
Defined.

(** The offset of a cycle counts in whole lengths only: an offset from 0
    up to, not reaching, the length changes nothing, and an offset of
    [k] lengths moves the cycle on by [k] entries. *)
Theorem cycle_offset_whole_lengths (epochValue length offset k n : Z) :
  0 < n -> 0 < length -> 0 <= offset < length ->
  cycleIndexOf epochValue length offset n = cycleIndexOf epochValue length 0 n
  /\ cycleIndexOf epochValue length (k * length + offset) n
     = (cycleIndexOf epochValue length 0 n + k) mod n.
Proof.
  intros Hn Hl Ho.
  rewrite !(proj1 (cycleIndexOf_mod _ length _ n Hn)).
  rewrite (Z.div_small offset length Ho), Z.div_0_l by lia.
  split; [reflexivity|].
  replace (k * length + offset) with (offset + k * length) by lia.
  rewrite Z.div_add, (Z.div_small offset length Ho) by lia.
  rewrite Zplus_mod_idemp_l. f_equal. lia.
Qed.

Lemma cycle_offset_whole_lengths_witness :
  cycleIndexOf 30 7 6 12 = cycleIndexOf 30 7 0 12.
Proof.
  apply (proj1 (cycle_offset_whole_lengths 30 7 6 0 12 ltac:(lia) ltac:(lia) ltac:(lia))).
Defined.

Lemma cycleValueOf_describes ev cycle :
  Cycle.entries cycle <> [] -> describes cycle (cycleValueOf ev cycle).
Proof.
  intros Hne. unfold describes, cycleValueOf. cbv zeta.
  assert (Hn : 0 < Z.of_nat (List.length (Cycle.entries cycle))).
  { destruct (Cycle.entries cycle); [congruence | cbn [List.length]; lia]. }
  destruct (epochValueOf ev (Cycle.basedOn cycle)) as [e|];
    [|split; reflexivity].
  destruct (Cycle.length cycle =? 0); [split; reflexivity|].
  cbn [CycleValue.cycleName CycleValue.index CycleValue.entryName].
  split; [reflexivity|].
  pose proof (proj2 (cycleIndexOf_mod e (Cycle.length cycle) (Cycle.offset cycle) _ Hn))
    as Hr.
  split; [exact Hr|].
  destruct (nth_error (Cycle.entries cycle) (Z.to_nat (cycleIndexOf _ _ _ _)))
    as [entry|] eqn:E.
  - exists entry. split; reflexivity.
  - apply nth_error_None in E. lia.
Qed.

Section Values.

Variable componentsToTime : Calendar.t -> Z -> Z -> Z -> Z -> Z -> Num.

(** With months loaded, [getCycleValues] returns one value for every
    cycle that has entries, in the order of the cycles; each value names
    its cycle, its index lies within the entries of the cycle and its
    entry name is the name of the entry at that index (a cycle that has
    no finite index, for want of a finite epoch value or with length 0,
    gets the empty name). *)
Theorem getCycleValues_describe_cycles
    (this : Calendar.t) (time : TimeComponents.t) (h : Store.t)
    (values : list Month.t) (cycles : list Cycle.t) :
  Calendar.months this = Some values ->
  Calendar.cycles this = Some cycles ->
  exists result,
    fst (getCycleValues componentsToTime this time h) = Some result
    /\ Forall2 describes
         (filter (fun cycle => negb (List.length (Cycle.entries cycle) =? 0)%nat) cycles)
         result.
Proof.
  intros Hm Hc. unfold getCycleValues. rewrite Hc.
  destruct cycles as [|c cs].
  - exists []. split; [reflexivity | constructor].
  - destruct (epochValues_returns componentsToTime this time
                (TimeComponents.year time + orZ (Calendar.yearZero this) 0) values h Hm)
      as (ev & h' & Hev & _).
    unfold bind. rewrite Hev. eexists. split; [reflexivity|].
    set (l := filter _ (c :: cs)).
    assert (Hl : Forall (fun cycle => Cycle.entries cycle <> []) l).
    { apply Forall_forall. intros x Hx. apply filter_In in Hx as [_ Hx].
      intros E. rewrite E in Hx. discriminate. }
    induction Hl as [|x l' Hx _ IH]; [constructor|].
    cbn [map]. constructor; [apply cycleValueOf_describes, Hx | exact IH].
Qed.

(** On a calendar whose months are not loaded [getCycleValues] throws as
    soon as there is a cycle and the month is past the first, and returns
    normally in the first month. *)
Theorem getCycleValues_without_months
    (this : Calendar.t) (time : TimeComponents.t) (h : Store.t)
    (cycle : Cycle.t) (cycles : list Cycle.t) :
  Calendar.months this = None ->
  Calendar.cycles this = Some (cycle :: cycles) ->
  (0 < TimeComponents.month time ->
   fst (getCycleValues componentsToTime this time h) = None)
  /\ (TimeComponents.month time <= 0 ->
      exists result, fst (getCycleValues componentsToTime this time h) = Some result).
Proof.
  intros Hm Hc. unfold getCycleValues. rewrite Hc.
  unfold _getCycleEpochValues, dayOfYearUnguarded. rewrite Hm. split; intros Hmonth.
  - destruct (Z.leb_spec (TimeComponents.month time) 0); [lia|]. reflexivity.
  - destruct (Z.leb_spec (TimeComponents.month time) 0); [|lia].
    destruct (getCurrentEra_returns this
                (TimeComponents.mk (TimeComponents.year time) (TimeComponents.month time)
                   (TimeComponents.dayOfMonth time) 0 0 0) h) as (res & h' & Hera).
    unfold bind, ret. rewrite Hera. eexists. reflexivity.
Qed.

End Values.

Lemma getCycleValues_describe_cycles_witness :
  exists result,
    fst (getCycleValues Fixtures.hostClock Fixtures.zodiacCalendar (Fixtures.noon 1600 5 0) [])
    = Some result
    /\ Forall2 describes [Fixtures.zodiac] result.
Proof.
  exact (getCycleValues_describe_cycles Fixtures.hostClock Fixtures.zodiacCalendar
           (Fixtures.noon 1600 5 0) [] Fixtures.twelveMonths [Fixtures.zodiac]
           eq_refl eq_refl).
Defined.

Lemma getCycleValues_without_months_witness :
  0 < 5
  /\ fst (getCycleValues Fixtures.hostClock Almanac.bareCalendar (Fixtures.noon 1600 5 0) [])
     = None.
Proof.
  split; [lia|].
  apply (proj1 (getCycleValues_without_months Fixtures.hostClock Almanac.bareCalendar
                  (Fixtures.noon 1600 5 0) [] Fixtures.zodiac [] eq_refl eq_refl)).
  cbn. lia.
Defined.

End CycleMore.
